(** * Shallow embedding of the qr-food-storage item routes

    Sources: [app/models.py] (tables and the derived accessors of [FoodItem]),
    [app/routes/items.py] (dashboard, create, edit, quick amount update, soft
    delete, restore, reuse), [app/routes/locations.py] and [app/seed.py].

    Conventions of the embedding:
    - a table is a list of rows in insertion (rowid) order; ids are allocated
      as SQLite does for an INTEGER PRIMARY KEY, [max(id) + 1];
    - dates are [date.toordinal()] values ([Z]), [timedelta(days=n)] is [+ n];
    - strings are ASCII strings; [\s] and [str.strip] use Python's
      whitespace set restricted to ASCII;
    - a Python [float] amount is only stored and copied, never computed on:
      it is kept as the rational it denotes ([Q]);
    - a handler returns its response together with the committed database;
      a handler that raises before [db.commit()] leaves the database as it was;
    - the external photo store ([save_photo]) is represented by its outcome,
      which the caller supplies: no upload, a stored file name, or the
      [ValueError] message. *)

From Stdlib Require Import List String Ascii ZArith Arith Lia Bool.
From Stdlib Require QArith.
Import ListNotations.
Abbreviation length := List.length (only parsing).

(* ------------------------------------------------------------------ *)
(** ** Python string helpers *)

Module Py.

(** [c.isspace()] on the ASCII range; also the set matched by [\s]. *)
Definition is_space (c : ascii) : bool :=
  match nat_of_ascii c with
  | 9 | 10 | 11 | 12 | 13 | 28 | 29 | 30 | 31 | 32 => true
  | _ => false
  end.

Fixpoint drop_spaces (l : list ascii) : list ascii :=
  match l with
  | c :: l' => if is_space c then drop_spaces l' else l
  | [] => []
  end.

(** [s.strip()] *)
Definition strip (s : string) : string :=
  string_of_list_ascii
    (rev (drop_spaces (rev (drop_spaces (list_ascii_of_string s))))).

(** [not s.strip()] *)
Definition is_blank (s : string) : bool := String.eqb (strip s) "".

(** [s.strip() or None] *)
Definition strip_or_none (s : string) : option string :=
  let t := strip s in if String.eqb t "" then None else Some t.

Definition ascii_lower (c : ascii) : ascii :=
  let n := nat_of_ascii c in
  if (65 <=? n) && (n <=? 90) then ascii_of_nat (n + 32) else c.

(** Case-insensitive comparison of two characters (re.IGNORECASE, SQL lower). *)
Definition char_ieq (c d : ascii) : bool := Ascii.eqb (ascii_lower c) (ascii_lower d).

End Py.

Import Py.

(* ------------------------------------------------------------------ *)
(** ** [URL_RE = re.compile(r"^https?://[^\s/$.?#].[^\s]*$", re.IGNORECASE)]
    and [URL_RE.match(url)]. *)

Module UrlRe.

(** [[^\s/$.?#]] *)
Definition first_host_char (c : ascii) : bool :=
  negb (is_space c) &&
  negb (existsb (Ascii.eqb c) ["/"; "$"; "."; "?"; "#"]%char).

(** [[^\s]*$]: non-whitespace characters up to the end, where [$] also
    matches just before a final newline. *)
Fixpoint nonspace_to_end (t : string) : bool :=
  match t with
  | EmptyString => true
  | String c t' =>
      if Ascii.eqb c "010"%char then String.eqb t' ""
      else negb (is_space c) && nonspace_to_end t'
  end.

(** [://[^\s/$.?#].[^\s]*$]; [.] matches any character but a newline. *)
Definition after_scheme (r : string) : bool :=
  match r with
  | String c0 (String c1 (String c2 (String c3 (String c4 tail)))) =>
      Ascii.eqb c0 ":" && Ascii.eqb c1 "/" && Ascii.eqb c2 "/" &&
      first_host_char c3 && negb (Ascii.eqb c4 "010"%char) &&
      nonspace_to_end tail
  | _ => false
  end.

(** [^https?] followed by the rest of the pattern. *)
Definition URL_RE_match (s : string) : bool :=
  match s with
  | String h (String t1 (String t2 (String p rest))) =>
      char_ieq h "h" && char_ieq t1 "t" && char_ieq t2 "t" && char_ieq p "p" &&
      (after_scheme rest ||
       match rest with
       | String c rest' => char_ieq c "s" && after_scheme rest'
       | EmptyString => false
       end)
  | _ => false
  end.

End UrlRe.

Import UrlRe.

(* ------------------------------------------------------------------ *)
(** ** Stable sorting (SQL ORDER BY as modelled, Python [list.sort]) *)

Section Sorting.
Context {A : Type} (le : A -> A -> bool).

Fixpoint insert_by (x : A) (l : list A) : list A :=
  match l with
  | [] => [x]
  | y :: l' => if le x y then x :: l else y :: insert_by x l'
  end.

(** Inserting from the right keeps equal keys in their input order. *)
Definition sort_by (l : list A) : list A := fold_right insert_by [] l.

Fixpoint sorted_by (l : list A) : bool :=
  match l with
  | x :: ((y :: _) as l') => le x y && sorted_by l'
  | _ => true
  end.

End Sorting.

Definition last_opt {A : Type} (l : list A) : option A :=
  match rev l with [] => None | x :: _ => Some x end.

(* ------------------------------------------------------------------ *)
(** ** Tables ([app/models.py]) *)

(** [ItemRevision]; [created_at] is not modelled (insertion order stands
    for creation order). *)
Record ItemRevision := mkRev {
  rev_id : Z;
  item_id : Z;
  revision_num : nat;
  name : string;
  date_prepared : Z;
  expiration_date : option Z;
  storage_location_id : Z;
  photo_filename : option string;
  notes : option string;
  amount : option QArith_base.Q;
  amount_unit : option string;
  is_deleted : bool
}.

Record RevisionLink := mkLink {
  link_id : Z;
  revision_id : Z;
  url : string;
  label : option string
}.

Record FoodItem := mkItem { fi_id : Z; public_id : string }.

Record Tag := mkTag { tag_id : Z; tag_name : string; is_default : bool }.

Record StorageLocation := mkLoc { loc_id : Z; loc_name : string }.

Record DB := mkDB {
  food_items : list FoodItem;
  item_revisions : list ItemRevision;
  revision_links : list RevisionLink;
  item_tags : list (Z * Z);          (* (item_id, tag_id) *)
  tags : list Tag;
  storage_locations : list StorageLocation
}.

Definition empty_db : DB := mkDB [] [] [] [] [] [].

(** SQLite rowid allocation: one more than the largest id in the table. *)
Definition next_id (ids : list Z) : Z := (1 + fold_right Z.max 0 ids)%Z.

Definition add_item (it : FoodItem) (s : DB) : DB :=
  mkDB (food_items s ++ [it]) (item_revisions s) (revision_links s)
       (item_tags s) (tags s) (storage_locations s).

Definition add_revision (r : ItemRevision) (s : DB) : DB :=
  mkDB (food_items s) (item_revisions s ++ [r]) (revision_links s)
       (item_tags s) (tags s) (storage_locations s).

Definition set_links (ls : list RevisionLink) (s : DB) : DB :=
  mkDB (food_items s) (item_revisions s) ls
       (item_tags s) (tags s) (storage_locations s).

Definition set_item_tags_rows (rows : list (Z * Z)) (s : DB) : DB :=
  mkDB (food_items s) (item_revisions s) (revision_links s)
       rows (tags s) (storage_locations s).

(** [for url, label in ...: db.add(RevisionLink(revision_id=rid, url=url, label=label))] *)
Fixpoint add_links (acc : list RevisionLink) (rid : Z)
    (pairs : list (string * option string)) : list RevisionLink :=
  match pairs with
  | [] => acc
  | (u, l) :: ps =>
      add_links (acc ++ [mkLink (next_id (map link_id acc)) rid u l]) rid ps
  end.

Definition add_links_db (rid : Z) (pairs : list (string * option string)) (s : DB) : DB :=
  set_links (add_links (revision_links s) rid pairs) s.

(** [ItemRevision.links] *)
Definition links_of (s : DB) (rid : Z) : list RevisionLink :=
  filter (fun k => Z.eqb (revision_id k) rid) (revision_links s).

Definition link_content (k : RevisionLink) : string * option string := (url k, label k).

(** [item.tags = tags]: the association rows of the item become exactly those
    of the given tags. *)
Definition set_item_tags (iid : Z) (ts : list Tag) (s : DB) : DB :=
  set_item_tags_rows
    (filter (fun p => negb (Z.eqb (fst p) iid)) (item_tags s) ++
     map (fun t => (iid, tag_id t)) ts) s.

(** [db.query(Tag).filter(Tag.id.in_(tag_ids)).all()] *)
Definition tags_in (s : DB) (ids : list Z) : list Tag :=
  filter (fun t => existsb (Z.eqb (tag_id t)) ids) (tags s).

(* ------------------------------------------------------------------ *)
(** ** Derived accessors of [FoodItem] *)

Definition rev_num_le (a b : ItemRevision) : bool := revision_num a <=? revision_num b.

(** The item's revisions in insertion order. *)
Definition revs_in_order (s : DB) (iid : Z) : list ItemRevision :=
  filter (fun r => Z.eqb (item_id r) iid) (item_revisions s).

(** [FoodItem.revisions], [relationship(order_by=ItemRevision.revision_num)]. *)
Definition item_revs (s : DB) (iid : Z) : list ItemRevision :=
  sort_by rev_num_le (revs_in_order s iid).

(** [latest_revision]: [self.revisions[-1] if self.revisions else None] *)
Definition latest_revision (revs : list ItemRevision) : option ItemRevision := last_opt revs.

(** [latest_active_revision]: first non-deleted one in [reversed(self.revisions)] *)
Definition latest_active_revision (revs : list ItemRevision) : option ItemRevision :=
  find (fun r => negb (is_deleted r)) (rev revs).

(** [is_deleted] property of [FoodItem] *)
Definition item_is_deleted (revs : list ItemRevision) : bool :=
  match latest_revision revs with Some r => is_deleted r | None => false end.

(** [_get_item_or_404] (lookup part). *)
Definition get_item (s : DB) (pid : string) : option FoodItem :=
  find (fun it => String.eqb (public_id it) pid) (food_items s).

(* ------------------------------------------------------------------ *)
(** ** Forms and responses *)

(** Outcome of [save_photo(photo)] when [photo and photo.filename]. *)
Inductive PhotoUpload :=
| PhotoSaved (filename : string)
| PhotoRejected (message : string).

(** The form fields of the create, edit and reuse POST handlers
    ([f_tag_ids] and [f_keep_photo] are read by create/edit only). *)
Record ItemForm := mkForm {
  f_name : string;
  f_date_prepared : Z;
  f_expiration_date : option Z;
  f_storage_location_id : Z;
  f_link_urls : list string;
  f_link_labels : list string;
  f_notes : string;
  f_amount : option QArith_base.Q;
  f_amount_unit : string;
  f_tag_ids : list Z;
  f_photo : option PhotoUpload;
  f_keep_photo : bool
}.

(** The ["form"] dict the create and reuse pages are rendered with. *)
Record FormEcho := mkEcho {
  e_name : string;
  e_date_prepared : Z;
  e_expiration_date : option Z;
  e_storage_location_id : Z;
  e_notes : string;
  e_amount : option QArith_base.Q;
  e_amount_unit : string
}.

Definition echo_of (f : ItemForm) : FormEcho :=
  mkEcho (f_name f) (f_date_prepared f) (f_expiration_date f)
         (f_storage_location_id f) (f_notes f) (f_amount f) (f_amount_unit f).

Inductive Response :=
| Redirect (target : string)
| NotFound                                   (* HTTPException(404) *)
| ServerError                                (* an uncaught exception *)
| CreatePage (errors : list string) (form : FormEcho) (tag_ids : list Z)
| EditPage (errors : list string) (rev : option ItemRevision) (item_tag_ids : list Z)
| ReuseFormPage (prev_name : string)
| ReusePage (errors : list string) (prev_name : string) (form : FormEcho)
| LocationsPage (error : option string).

(** The errors a rendered form page carries. *)
Definition page_errors (r : Response) : list string :=
  match r with
  | CreatePage es _ _ | EditPage es _ _ | ReusePage es _ _ => es
  | _ => []
  end.

(** The submitted values a rendered form page carries back to the user. *)
Definition page_form (r : Response) : option FormEcho :=
  match r with
  | CreatePage _ e _ | ReusePage _ _ e => Some e
  | _ => None
  end.

(* ------------------------------------------------------------------ *)
(** ** The validation block shared by [create_item], [save_edit] and
    [reuse_label] (the three handlers contain the same code). *)

(** [date.max.toordinal()] *)
Definition date_max : Z := 3652059%Z.

(** [date_prepared + timedelta(days=7)] raises [OverflowError] when the
    result would pass [date.max]; it is only evaluated when no
    [expiration_date] was submitted. *)
Definition exp_overflow (f : ItemForm) : bool :=
  match f_expiration_date f with
  | Some _ => false
  | None => (date_max <? f_date_prepared f + 7)%Z
  end.

(** [exp = expiration_date or (date_prepared + timedelta(days=7))], when it
    does not overflow ([exp_overflow f = false]). *)
Definition exp_of (f : ItemForm) : Z :=
  match f_expiration_date f with
  | Some d => d
  | None => (f_date_prepared f + 7)%Z
  end.

(** The link loop over [zip(link_urls, link_labels)]: the [errors] it appends
    and the [clean_links] it builds. *)
Fixpoint check_links (pairs : list (string * string))
    : list string * list (string * option string) :=
  match pairs with
  | [] => ([], [])
  | (u0, l0) :: ps =>
      let '(es, cl) := check_links ps in
      let u := strip u0 in
      if String.eqb u "" then (es, cl)
      else if URL_RE_match u then (es, (u, strip_or_none l0) :: cl)
      else (("Invalid URL: " ++ u)%string :: es, cl)
  end.

Definition form_links (f : ItemForm) : list (string * string) :=
  combine (f_link_urls f) (f_link_labels f).

(** Errors of the name, date and link checks, in the order they are appended. *)
Definition attr_errors (f : ItemForm) : list string :=
  (if is_blank (f_name f) then ["Name is required."%string] else []) ++
  (if (exp_of f <? f_date_prepared f)%Z
   then ["Expiration date must be on or after date prepared."%string] else []) ++
  fst (check_links (form_links f)).

(** [if photo and photo.filename: try: photo_filename = await save_photo(photo)
    except ValueError as e: errors.append(str(e))] *)
Definition photo_step (p : option PhotoUpload) : list string * option string :=
  match p with
  | Some (PhotoSaved fn) => ([], Some fn)
  | Some (PhotoRejected msg) => ([msg], None)
  | None => ([], None)
  end.

(** The revision the three form handlers build from the form. *)
Definition form_revision (rid iid : Z) (num : nat) (f : ItemForm)
    (photo : option string) : ItemRevision :=
  mkRev rid iid num (strip (f_name f)) (f_date_prepared f) (Some (exp_of f))
        (f_storage_location_id f) photo (strip_or_none (f_notes f))
        (f_amount f) (strip_or_none (f_amount_unit f)) false.

(* ------------------------------------------------------------------ *)
(** ** POST /items: [create_item].  [new_public_id] is the token
    [_generate_public_id()] draws for the new row. *)

Definition create_item (f : ItemForm) (new_public_id : string) (s : DB) : Response * DB :=
  (* the OverflowError of [exp = ...] is raised before anything is stored *)
  if exp_overflow f then (ServerError, s) else
  let '(photo_errs, photo_filename) := photo_step (f_photo f) in
  let errors := attr_errors f ++ photo_errs in
  match errors with
  | _ :: _ => (CreatePage errors (echo_of f) (f_tag_ids f), s)
  | [] =>
      (* the unique index on public_id rejects a clashing token at flush *)
      if existsb (fun it => String.eqb (public_id it) new_public_id) (food_items s)
      then (ServerError, s)
      else
        let iid := next_id (map fi_id (food_items s)) in
        let s1 := add_item (mkItem iid new_public_id) s in
        let s2 := match f_tag_ids f with
                  | [] => s1
                  | ids => set_item_tags iid (tags_in s1 ids) s1
                  end in
        let rid := next_id (map rev_id (item_revisions s2)) in
        let s3 := add_revision (form_revision rid iid 1 f photo_filename) s2 in
        let s4 := add_links_db rid (snd (check_links (form_links f))) s3 in
        (Redirect ("/i/" ++ new_public_id), s4)
  end.

(** [new_num = (prev.revision_num + 1) if prev else 1] *)
Definition next_num (prev : option ItemRevision) : nat :=
  match prev with Some p => S (revision_num p) | None => 1 end.

(** ** POST /i/{public_id}/edit: [save_edit] *)
Definition save_edit (pid : string) (f : ItemForm) (s : DB) : Response * DB :=
  match get_item s pid with
  | None => (NotFound, s)
  | Some it =>
      if exp_overflow f then (ServerError, s) else
      let prev_rev := latest_revision (item_revs s (fi_id it)) in
      let '(photo_errs, photo_filename) :=
        match f_photo f with
        | Some _ => photo_step (f_photo f)
        | None =>
            match f_keep_photo f, prev_rev with
            | true, Some p => ([], photo_filename p)
            | _, _ => ([], None)
            end
        end in
      let errors := attr_errors f ++ photo_errs in
      match errors with
      | _ :: _ => (EditPage errors prev_rev (f_tag_ids f), s)
      | [] =>
          let s1 := match f_tag_ids f with
                    | [] => set_item_tags (fi_id it) [] s
                    | ids => set_item_tags (fi_id it) (tags_in s ids) s
                    end in
          let rid := next_id (map rev_id (item_revisions s1)) in
          let s2 := add_revision
                      (form_revision rid (fi_id it) (next_num prev_rev) f photo_filename) s1 in
          let s3 := add_links_db rid (snd (check_links (form_links f))) s2 in
          (Redirect ("/i/" ++ pid), s3)
      end
  end.

(** ** POST /i/{public_id}/amount: [update_amount] *)
Definition update_amount (pid : string) (amt : option QArith_base.Q) (unit : string)
    (today : Z) (s : DB) : Response * DB :=
  match get_item s pid with
  | None => (NotFound, s)
  | Some it =>
      let prev := latest_revision (item_revs s (fi_id it)) in
      let rid := next_id (map rev_id (item_revisions s)) in
      let r := match prev with
               | Some p =>
                   mkRev rid (fi_id it) (next_num prev) (name p) (date_prepared p)
                         (expiration_date p) (storage_location_id p) (photo_filename p)
                         (notes p) amt (strip_or_none unit) (is_deleted p)
               | None =>
                   mkRev rid (fi_id it) 1 "Unknown" today None 1 None None
                         amt (strip_or_none unit) false
               end in
      let s1 := add_revision r s in
      (* Copy links from previous revision *)
      let s2 := match prev with
                | Some p => add_links_db rid (map link_content (links_of s1 (rev_id p))) s1
                | None => s1
                end in
      (Redirect "/", s2)
  end.

(** ** POST /i/{public_id}/delete: [soft_delete] *)
Definition soft_delete (pid : string) (today : Z) (s : DB) : Response * DB :=
  match get_item s pid with
  | None => (NotFound, s)
  | Some it =>
      let prev := latest_revision (item_revs s (fi_id it)) in
      let rid := next_id (map rev_id (item_revisions s)) in
      let r := match prev with
               | Some p =>
                   mkRev rid (fi_id it) (next_num prev) (name p) (date_prepared p)
                         (expiration_date p) (storage_location_id p) (photo_filename p)
                         (notes p) (amount p) (amount_unit p) true
               | None =>
                   mkRev rid (fi_id it) 1 "Unknown" today None 1 None None None None true
               end in
      (Redirect ("/i/" ++ pid), add_revision r s)
  end.

(** [source = item.latest_active_revision or item.latest_revision] *)
Definition restore_source (revs : list ItemRevision) : option ItemRevision :=
  match latest_active_revision revs with
  | Some a => Some a
  | None => latest_revision revs
  end.

(** ** POST /i/{public_id}/restore: [restore_item].  With no revision at
    all, [source] is [None] and [source.name] raises. *)
Definition restore_item (pid : string) (s : DB) : Response * DB :=
  match get_item s pid with
  | None => (NotFound, s)
  | Some it =>
      let revs := item_revs s (fi_id it) in
      let prev := latest_revision revs in
      match restore_source revs with
      | None => (ServerError, s)
      | Some src =>
          let rid := next_id (map rev_id (item_revisions s)) in
          let r := mkRev rid (fi_id it) (next_num prev) (name src) (date_prepared src)
                         (expiration_date src) (storage_location_id src)
                         (photo_filename src) (notes src) (amount src)
                         (amount_unit src) false in
          let s1 := add_revision r s in
          (* Copy links from source revision *)
          let s2 := add_links_db rid (map link_content (links_of s1 (rev_id src))) s1 in
          (Redirect ("/i/" ++ pid), s2)
      end
  end.

(** ** GET /i/{public_id}/reuse: [reuse_form] *)
Definition reuse_form (pid : string) (s : DB) : Response :=
  match get_item s pid with
  | None => NotFound
  | Some it =>
      let revs := item_revs s (fi_id it) in
      if negb (item_is_deleted revs) then Redirect ("/i/" ++ pid)
      else ReuseFormPage (match latest_revision revs with
                          | Some p => name p
                          | None => "Unknown"
                          end)
  end.

(** ** POST /i/{public_id}/reuse: [reuse_label] *)
Definition reuse_label (pid : string) (f : ItemForm) (s : DB) : Response * DB :=
  match get_item s pid with
  | None => (NotFound, s)
  | Some it =>
      if exp_overflow f then (ServerError, s) else
      let prev := latest_revision (item_revs s (fi_id it)) in
      let '(photo_errs, photo_filename) := photo_step (f_photo f) in
      let errors := attr_errors f ++ photo_errs in
      match errors with
      | _ :: _ =>
          (ReusePage errors
             (match prev with Some p => name p | None => "Unknown" end)
             (echo_of f), s)
      | [] =>
          let rid := next_id (map rev_id (item_revisions s)) in
          let s1 := add_revision
                      (form_revision rid (fi_id it) (next_num prev) f photo_filename) s in
          let s2 := add_links_db rid (snd (check_links (form_links f))) s1 in
          (Redirect ("/i/" ++ pid), s2)
      end
  end.

(* ------------------------------------------------------------------ *)
(** ** [app/routes/locations.py] and [app/seed.py] *)

Definition add_location (n : string) (s : DB) : DB :=
  mkDB (food_items s) (item_revisions s) (revision_links s) (item_tags s) (tags s)
       (storage_locations s ++ [mkLoc (next_id (map loc_id (storage_locations s))) n]).

Definition add_tag (n : string) (dflt : bool) (s : DB) : DB :=
  mkDB (food_items s) (item_revisions s) (revision_links s) (item_tags s)
       (tags s ++ [mkTag (next_id (map tag_id (tags s))) n dflt])
       (storage_locations s).

(** POST /locations: [create_location] *)
Definition create_location (name0 : string) (s : DB) : Response * DB :=
  let n := strip name0 in
  if String.eqb n "" then (LocationsPage (Some "Name is required."%string), s)
  else if existsb (fun l => String.eqb (loc_name l) n) (storage_locations s)
  then (LocationsPage (Some ("'" ++ n ++ "' already exists.")%string), s)
  else (Redirect "/locations", add_location n s).

Definition DEFAULT_LOCATIONS : list string := ["Pantry"; "Fridge"; "Freezer"]%string.

Definition DEFAULT_TAGS : list (string * bool) :=
  [("Prepared Meals"%string, true); ("Snacks"%string, true)].

Definition seed_locations (s : DB) : DB :=
  let existing := map loc_name (storage_locations s) in
  fold_left (fun acc n => if existsb (String.eqb n) existing then acc else add_location n acc)
            DEFAULT_LOCATIONS s.

Definition seed_tags (s : DB) : DB :=
  let existing := map tag_name (tags s) in
  fold_left (fun acc td => if existsb (String.eqb (fst td)) existing then acc
                           else add_tag (fst td) (snd td) acc)
            DEFAULT_TAGS s.

(** [on_startup]: [create_all], then the two seeds. *)
Definition on_startup (s : DB) : DB := seed_tags (seed_locations s).

(* ------------------------------------------------------------------ *)
(** ** GET /: [item_list] *)

(** SQL [LIKE] (wildcards [%] and [_], no escape character); both sides are
    lowered, as SQLAlchemy's [ilike] does on SQLite. *)
Fixpoint like_match (p s : list ascii) : bool :=
  match p with
  | [] => match s with [] => true | _ => false end
  | c :: p' =>
      if Ascii.eqb c "%" then
        (fix any (t : list ascii) : bool :=
           like_match p' t || match t with [] => false | _ :: t' => any t' end) s
      else
        match s with
        | [] => false
        | d :: s' => (Ascii.eqb c "_" || char_ieq c d) && like_match p' s'
        end
  end.

(** [column.ilike(pattern)] *)
Definition ilike (value pattern : string) : bool :=
  like_match (list_ascii_of_string pattern) (list_ascii_of_string value).

(** [func.max(ItemRevision.revision_num)] of the item's group. *)
Definition max_rev_num (s : DB) (iid : Z) : nat :=
  fold_right Nat.max 0 (map revision_num (revs_in_order s iid)).

(** The join of [item_revisions] with [latest_rev_sq]. *)
Definition latest_rows (s : DB) : list ItemRevision :=
  filter (fun r => Nat.eqb (revision_num r) (max_rev_num s (item_id r))) (item_revisions s).

(** [ORDER BY expiration_date ASC] on SQLite, the configured default
    [DATABASE_URL]: NULL sorts before every date. *)
Definition sqlite_exp_le (a b : ItemRevision) : bool :=
  match expiration_date a, expiration_date b with
  | None, _ => true
  | Some _, None => false
  | Some x, Some y => (x <=? y)%Z
  end.

(** [revisions = query....order_by(ItemRevision.expiration_date.asc()).all()] *)
Definition dashboard_revisions (s : DB) (q : string) (location : option Z)
    (show_deleted : bool) : list ItemRevision :=
  let rows := latest_rows s in
  let rows := if show_deleted then rows else filter (fun r => negb (is_deleted r)) rows in
  let rows := if String.eqb q "" then rows
              else filter (fun r => ilike (name r) ("%" ++ q ++ "%")) rows in
  let rows := match location with
              | Some l => if Z.eqb l 0 then rows
                          else filter (fun r => Z.eqb (storage_location_id r) l) rows
              | None => rows
              end in
  sort_by sqlite_exp_le rows.

(** [key=lambda r: r.expiration_date or date.max] *)
Definition tag_sort_key (r : ItemRevision) : Z :=
  match expiration_date r with Some d => d | None => date_max end.

Definition tag_key_le (a b : ItemRevision) : bool := (tag_sort_key a <=? tag_sort_key b)%Z.

Definition loc_name_le (a b : StorageLocation) : bool := String.leb (loc_name a) (loc_name b).
Definition tag_name_le (a b : Tag) : bool := String.leb (tag_name a) (tag_name b).

(** [rev_by_item[item_id]] for [rev_by_item = {rev.item_id: rev for rev in revisions}]:
    the last revision of the list with that item id wins. *)
Definition rev_by_item (revisions : list ItemRevision) (iid : Z) : option ItemRevision :=
  find (fun r => Z.eqb (item_id r) iid) (rev revisions).

(** [tag.items] *)
Definition tag_items (s : DB) (t : Tag) : list FoodItem :=
  filter (fun it => existsb (fun p => Z.eqb (fst p) (fi_id it) && Z.eqb (snd p) (tag_id t))
                            (item_tags s))
         (food_items s).

Record DashboardView := mkView {
  sections : list (StorageLocation * list ItemRevision);
  tag_sections : list (Tag * list ItemRevision);
  expiring_soon : list ItemRevision
}.

Definition item_list (s : DB) (q : string) (location : option Z) (show_deleted : bool)
    (today : Z) : DashboardView :=
  let locations := sort_by loc_name_le (storage_locations s) in
  let revisions := dashboard_revisions s q location show_deleted in
  let secs :=
    flat_map (fun loc =>
                match filter (fun r => Z.eqb (storage_location_id r) (loc_id loc)) revisions with
                | [] => []
                | items => [(loc, items)]
                end) locations in
  let default_tags := sort_by tag_name_le (filter is_default (tags s)) in
  let tsecs :=
    flat_map (fun t =>
                let tag_revs :=
                  flat_map (fun it => match rev_by_item revisions (fi_id it) with
                                      | Some r => [r]
                                      | None => []
                                      end) (tag_items s t) in
                match sort_by tag_key_le tag_revs with
                | [] => []
                | sorted => [(t, sorted)]
                end) default_tags in
  let soon := (today + 3)%Z in
  let exp_soon :=
    filter (fun r => match expiration_date r with
                     | Some d => negb (is_deleted r) && (today <=? d)%Z && (d <=? soon)%Z
                     | None => false
                     end) revisions in
  mkView secs tsecs exp_soon.

(** Every revision the dashboard shows, in any of its groupings. *)
Definition view_revisions (v : DashboardView) : list ItemRevision :=
  flat_map snd (sections v) ++ flat_map snd (tag_sections v) ++ expiring_soon v.

(* ------------------------------------------------------------------ *)
(** ** Reachable databases: the empty schema, then any sequence of the
    writing handlers. *)

Inductive step : DB -> DB -> Prop :=
| step_startup s : step s (on_startup s)
| step_create_location n s : step s (snd (create_location n s))
| step_create f pid s : step s (snd (create_item f pid s))
| step_edit pid f s : step s (snd (save_edit pid f s))
| step_amount pid a u today s : step s (snd (update_amount pid a u today s))
| step_delete pid today s : step s (snd (soft_delete pid today s))
| step_restore pid s : step s (snd (restore_item pid s))
| step_reuse pid f s : step s (snd (reuse_label pid f s)).

Inductive reachable : DB -> Prop :=
| reach_init : reachable empty_db
| reach_step s s' : reachable s -> step s s' -> reachable s'.

(* ------------------------------------------------------------------ *)
(** ** Properties, invariants and sample data used by the proofs *)

Record Inv (s : DB) : Prop := {
  inv_owner : forall r, In r (item_revisions s) ->
              exists it, In it (food_items s) /\ fi_id it = item_id r;
  inv_exp : forall r, In r (item_revisions s) -> expiration_date r <> None;
  inv_nums : forall it, In it (food_items s) ->
             revs_in_order s (fi_id it) <> [] /\
             map revision_num (revs_in_order s (fi_id it)) =
             seq 1 (length (revs_in_order s (fi_id it)));
  inv_links : forall k, In k (revision_links s) ->
              exists r, In r (item_revisions s) /\ rev_id r = revision_id k
}.

Definition same_rows (s s' : DB) : Prop :=
  food_items s' = food_items s /\ item_revisions s' = item_revisions s /\
  revision_links s' = revision_links s.

(** The displayable fields of a revision (all but ids, number and flag). *)
Definition displayable (r : ItemRevision) :=
  (name r, date_prepared r, expiration_date r, storage_location_id r,
   photo_filename r, notes r, amount r, amount_unit r).

Definition demo_form : ItemForm :=
  mkForm "Soup" 738000%Z None 1%Z ["https://a.test/b"%string] ["Y"%string] "" None "" [1%Z]
         None false.

(** After startup, one item created with one link and the default tag 1. *)
Definition demo_db : DB := snd (create_item demo_form "tok" (on_startup empty_db)).

Definition demo_item : FoodItem := mkItem 1 "tok".

(** The item's revisions, in insertion order, are numbered [1..N]. *)
Definition contiguous (s : DB) : Prop :=
  forall it, In it (food_items s) ->
  map revision_num (revs_in_order s (fi_id it)) = seq 1 (length (revs_in_order s (fi_id it))).

(** Revision 1 of the demo item. *)
Definition demo_rev1 : ItemRevision :=
  mkRev 1 1 1 "Soup" 738000 (Some 738007%Z) 1 None None None None false.

Definition reuse_demo_form : ItemForm :=
  mkForm "Chili" 738010%Z None 2%Z [] [] "" None "" [] None false.

(** The reuse form prepared on 9999-12-27 with no expiration date. *)
Definition overflow_reuse_form : ItemForm :=
  mkForm "Chili" 3652055%Z None 2%Z [] [] "" None "" [] None false.

(** A revision that is its item's latest: it is stored and no revision of
    the same item has a larger number. *)
Definition is_latest_of_item (s : DB) (r : ItemRevision) : Prop :=
  In r (item_revisions s) /\
  forall r', In r' (item_revisions s) -> item_id r' = item_id r -> revision_num r' <= revision_num r.

(** The order the claim asks for: expiration date ascending, NULL last. *)
Definition exp_nulls_last_le (a b : ItemRevision) : bool :=
  match expiration_date a, expiration_date b with
  | Some x, Some y => (x <=? y)%Z
  | Some _, None => true
  | None, Some _ => false
  | None, None => true
  end.

Definition has_expiration (r : ItemRevision) : Prop := expiration_date r <> None.

(** A valid form naming storage location 42. *)
Definition dangling_form : ItemForm :=
  mkForm "Soup" 738000%Z None 42%Z [] [] "" None "" [] None false.

(** The [errors] list the three form handlers accumulate: every failed
    check of name, dates and links, then the photo's rejection. *)
Definition form_errors (f : ItemForm) : list string :=
  attr_errors f ++ fst (photo_step (f_photo f)).

(** The demo form with a blank name. *)
Definition blank_name_form : ItemForm :=
  mkForm "  " 738000%Z None 1%Z ["https://a.test/b"%string] ["Y"%string] "" None "" [1%Z]
         None false.

Definition blank_name_form_no_links : ItemForm :=
  mkForm "  " 738000%Z None 1%Z [] [] "" None "" [1%Z] None false.

Definition link_skipped (p : string * string) : bool := String.eqb (strip (fst p)) "".

Definition link_invalid (p : string * string) : bool :=
  negb (link_skipped p) && negb (URL_RE_match (strip (fst p))).

Definition link_valid (p : string * string) : bool :=
  negb (link_skipped p) && URL_RE_match (strip (fst p)).

(* ------------------------------------------------------------------ *)
(** ** The read-only item pages of [app/routes/items.py], [app/qr.py]
    and [app/photo.py] *)

(** [item_url(public_id)]; [base_url] is [BASE_URL] of [app/config.py]
    (read from the environment, ["http://localhost:8000"] by default). *)
Definition item_url (base_url pid : string) : string := (base_url ++ "/i/" ++ pid)%string.

(** [photo_url(filename)] *)
Definition photo_url (filename : option string) : option string :=
  match filename with
  | None => None
  | Some fn => if String.eqb fn "" then None else Some ("/uploads/" ++ fn)%string
  end.

(** [{t.id for t in item.tags}]: the tags joined through [item_tags]. *)
Definition item_tag_ids (s : DB) (iid : Z) : list Z :=
  map tag_id (filter (fun t => existsb (fun p => Z.eqb (fst p) iid && Z.eqb (snd p) (tag_id t))
                                       (item_tags s))
                     (tags s)).

(** What the GET handlers render: the template's variables, or the PNG
    returned by [qr_image] (represented by the data its QR code encodes). *)
Inductive PageView :=
| DetailPage (rev : option ItemRevision) (deleted : bool) (url : string)
| QrPng (data : string)
| LabelPage (rev : option ItemRevision) (qr_url : string)
| EditFormPage (rev : option ItemRevision) (tag_ids : list Z)
| HistoryPage (revisions : list ItemRevision).

(** GET /i/{public_id}: [item_detail]; [None] is the 404 of
    [_get_item_or_404]. *)
Definition item_detail (base_url pid : string) (s : DB) : option PageView :=
  match get_item s pid with
  | None => None
  | Some it =>
      let revs := item_revs s (fi_id it) in
      Some (DetailPage (latest_revision revs) (item_is_deleted revs) (item_url base_url pid))
  end.

(** GET /i/{public_id}/qr.png: [qr_image], i.e. [generate_qr_png(item.public_id)]. *)
Definition qr_image (base_url pid : string) (s : DB) : option PageView :=
  match get_item s pid with
  | None => None
  | Some it => Some (QrPng (item_url base_url (public_id it)))
  end.

(** GET /i/{public_id}/label: [printable_label] *)
Definition printable_label (pid : string) (s : DB) : option PageView :=
  match get_item s pid with
  | None => None
  | Some it =>
      Some (LabelPage (latest_revision (item_revs s (fi_id it))) ("/i/" ++ pid ++ "/qr.png")%string)
  end.

(** GET /i/{public_id}/edit: [edit_form], with
    [rev = item.latest_active_revision or item.latest_revision]. *)
Definition edit_form (pid : string) (s : DB) : option PageView :=
  match get_item s pid with
  | None => None
  | Some it =>
      let revs := item_revs s (fi_id it) in
      let rev := match latest_active_revision revs with
                 | Some a => Some a
                 | None => latest_revision revs
                 end in
      Some (EditFormPage rev (item_tag_ids s (fi_id it)))
  end.

(** GET /i/{public_id}/history: [item_history], [list(reversed(item.revisions))]. *)
Definition item_history (pid : string) (s : DB) : option PageView :=
  match get_item s pid with
  | None => None
  | Some it => Some (HistoryPage (rev (item_revs s (fi_id it))))
  end.

(* ------------------------------------------------------------------ *)
(** ** [save_photo] of [app/photo.py] *)

Definition ALLOWED_EXTENSIONS : list string := [".jpg"; ".jpeg"; ".png"; ".gif"; ".webp"]%string.

Definition MAX_SIZE_BYTES : Z := (10 * 1024 * 1024)%Z.

(** [s.split("/")] on a list of characters. *)
Fixpoint split_slash (l : list ascii) : list (list ascii) :=
  match l with
  | [] => [[]]
  | c :: l' =>
      if Ascii.eqb c "/" then [] :: split_slash l'
      else match split_slash l' with
           | w :: ws => (c :: w) :: ws
           | [] => [[c]]
           end
  end.

(** [PurePosixPath(filename).name]: the last component, empty components
    and ["."] dropped. *)
Definition path_name (l : list ascii) : list ascii :=
  last (filter (fun w => negb (match w with [] => true | _ => false end) &&
                         negb (match w with ["."%char] => true | _ => false end))
               (split_slash l)) [].

(** [name.rfind(".")] *)
Fixpoint rfind_dot (l : list ascii) : option nat :=
  match l with
  | [] => None
  | c :: l' =>
      match rfind_dot l' with
      | Some i => Some (S i)
      | None => if Ascii.eqb c "." then Some 0 else None
      end
  end.

(** [PurePath.suffix]: [name[i:]] when [0 < i < len(name) - 1], else [""]. *)
Definition path_suffix (l : list ascii) : list ascii :=
  let name := path_name l in
  match rfind_dot name with
  | Some i => if (0 <? i) && (i <? length name - 1) then skipn i name else []
  | None => []
  end.

(** [str.lower()] *)
Definition lower (s : string) : string :=
  string_of_list_ascii (map ascii_lower (list_ascii_of_string s)).

(** [save_photo(file)]: [hex] is [uuid.uuid4().hex], [size] is
    [len(await file.read())], and [allowed_repr] is the text of
    [{ALLOWED_EXTENSIONS}] in the message (a set's order is not fixed). *)
Definition save_photo (hex allowed_repr filename : string) (size : Z) : PhotoUpload :=
  let ext := if String.eqb filename "" then ".jpg"%string
             else lower (string_of_list_ascii (path_suffix (list_ascii_of_string filename))) in
  if negb (existsb (String.eqb ext) ALLOWED_EXTENSIONS)
  then PhotoRejected ("File type " ++ ext ++ " not allowed. Use: " ++ allowed_repr)%string
  else if (MAX_SIZE_BYTES <? size)%Z then PhotoRejected "File too large (max 10 MB)"
  else PhotoSaved (hex ++ ext)%string.

(* ------------------------------------------------------------------ *)
(** ** Properties of the extra results *)

(** Every table but [item_tags] only gains rows, at its end. *)
Definition grows (s s' : DB) : Prop :=
  (exists a, food_items s' = food_items s ++ a) /\
  (exists b, item_revisions s' = item_revisions s ++ b) /\
  (exists c, revision_links s' = revision_links s ++ c) /\
  (exists d, tags s' = tags s ++ d) /\
  (exists e, storage_locations s' = storage_locations s ++ e).

(** A query without the LIKE wildcards [%] and [_]. *)
Definition no_wildcards (q : string) : bool :=
  forallb (fun c => negb (Ascii.eqb c "%" || Ascii.eqb c "_")) (list_ascii_of_string q).

(* ================================================================== *)
(** * Proofs *)

(** ** Sorting *)

Section SortFacts.
Context {A : Type} (le : A -> A -> bool).

Lemma In_insert_by (a x : A) (l : list A) :
  In x (insert_by le a l) <-> a = x \/ In x l.
Proof.
  induction l as [|y l IH]; simpl; [tauto|].
  destruct (le a y); simpl; [tauto|]. rewrite IH. tauto.
Qed.

Lemma In_sort_by (x : A) (l : list A) : In x (sort_by le l) <-> In x l.
Proof.
  induction l as [|y l IH]; simpl; [tauto|].
  rewrite In_insert_by, IH. tauto.
Qed.

Hypothesis le_total : forall a b, le a b = false -> le b a = true.

Lemma sorted_insert_by (a : A) (l : list A) :
  sorted_by le l = true -> sorted_by le (insert_by le a l) = true.
Proof.
  induction l as [|y l IH]; simpl; [reflexivity|].
  intros Hs. destruct (le a y) eqn:Hay.
  - simpl. rewrite Hay. exact Hs.
  - destruct l as [|z l]; simpl.
    + rewrite (le_total _ _ Hay). reflexivity.
    + apply andb_true_iff in Hs as [Hyz Hs].
      specialize (IH Hs). simpl in IH. destruct (le a z) eqn:Haz.
      * simpl in *. rewrite (le_total _ _ Hay), Haz. simpl. exact Hs.
      * simpl in *. rewrite Hyz. exact IH.
Qed.

Lemma sorted_sort_by (l : list A) : sorted_by le (sort_by le l) = true.
Proof.
  induction l as [|y l IH]; simpl; [reflexivity|].
  apply sorted_insert_by. exact IH.
Qed.

End SortFacts.

Lemma sort_by_sorted {A} (le : A -> A -> bool) (l : list A) :
  sorted_by le l = true -> sort_by le l = l.
Proof.
  induction l as [|x l IH]; simpl; [reflexivity|].
  intros Hs. destruct l as [|y l]; [reflexivity|].
  apply andb_true_iff in Hs as [Hxy Hs].
  rewrite (IH Hs). simpl. rewrite Hxy. reflexivity.
Qed.

Lemma sorted_by_cons_all {A} (le : A -> A -> bool)
  (le_trans : forall a b c, le a b = true -> le b c = true -> le a c = true)
  (x : A) (l : list A) :
  sorted_by le (x :: l) = true -> forall y, In y l -> le x y = true.
Proof.
  revert x. induction l as [|z l IH]; simpl; [tauto|].
  intros x Hs y [<-|Hy]; apply andb_true_iff in Hs as [Hxz Hs]; [exact Hxz|].
  apply (le_trans _ z); [exact Hxz|]. apply IH; assumption.
Qed.

Lemma sorted_by_tail {A} (le : A -> A -> bool) (x : A) (l : list A) :
  sorted_by le (x :: l) = true -> sorted_by le l = true.
Proof. destruct l; simpl; [reflexivity|]. intros H; apply andb_true_iff in H; tauto. Qed.

Lemma sorted_by_filter {A} (le : A -> A -> bool)
  (le_trans : forall a b c, le a b = true -> le b c = true -> le a c = true)
  (p : A -> bool) (l : list A) :
  sorted_by le l = true -> sorted_by le (filter p l) = true.
Proof.
  induction l as [|x l IH]; simpl; [reflexivity|].
  intros Hs. pose proof (sorted_by_tail _ _ _ Hs) as Ht.
  destruct (p x); [|exact (IH Ht)].
  specialize (IH Ht).
  destruct (filter p l) as [|y m] eqn:Hf; [reflexivity|].
  change (le x y && sorted_by le (y :: m) = true). rewrite IH, andb_true_r.
  apply (sorted_by_cons_all le le_trans x l Hs).
  apply (proj1 (filter_In p y l)). rewrite Hf. left. reflexivity.
Qed.

(** Sortedness carries over to another order that agrees on the elements. *)
Lemma sorted_by_transfer {A} (le1 le2 : A -> A -> bool) (P : A -> Prop) (l : list A) :
  (forall x y, P x -> P y -> le1 x y = true -> le2 x y = true) ->
  Forall P l -> sorted_by le1 l = true -> sorted_by le2 l = true.
Proof.
  intros Hagree HP. induction HP as [|x l Hx HP IH]; simpl; [reflexivity|].
  destruct l as [|y m]; [reflexivity|].
  intros Hs. apply andb_true_iff in Hs as [Hxy Hs].
  inversion HP; subst.
  rewrite (Hagree _ _ Hx H1 Hxy). simpl. exact (IH Hs).
Qed.

(** Inserting below a last element that bounds it. *)
Lemma insert_by_app_last {A} (le : A -> A -> bool) (y r : A) (m : list A) :
  le y r = true -> insert_by le y (m ++ [r]) = insert_by le y m ++ [r].
Proof.
  intros Hyr. induction m as [|z m IH]; simpl.
  - rewrite Hyr. reflexivity.
  - destruct (le y z); [reflexivity|]. rewrite IH. reflexivity.
Qed.

Lemma sort_by_app_last {A} (le : A -> A -> bool) (l : list A) (r : A) :
  (forall y, In y l -> le y r = true) -> sort_by le (l ++ [r]) = sort_by le l ++ [r].
Proof.
  induction l as [|y l IH]; intros Hb; [reflexivity|].
  change (insert_by le y (sort_by le (l ++ [r])) = insert_by le y (sort_by le l) ++ [r]).
  rewrite IH by (intros; apply Hb; right; assumption).
  apply insert_by_app_last. apply Hb. left. reflexivity.
Qed.

Lemma last_opt_app_last {A} (l : list A) (x : A) : last_opt (l ++ [x]) = Some x.
Proof. unfold last_opt. rewrite rev_app_distr. reflexivity. Qed.

Lemma last_opt_In {A} (l : list A) (x : A) : last_opt l = Some x -> In x l.
Proof.
  unfold last_opt. intros H. apply in_rev.
  destruct (rev l); [discriminate|]. inversion H; subst. left; reflexivity.
Qed.

(** ** Tables *)

Lemma filter_all_false {A} (p : A -> bool) (l : list A) :
  (forall x, In x l -> p x = false) -> filter p l = [].
Proof.
  induction l as [|x l IH]; simpl; intros H; [reflexivity|].
  rewrite (H x (or_introl eq_refl)). apply IH. intros; apply H; right; assumption.
Qed.

Lemma next_id_gt (ids : list Z) (x : Z) : In x ids -> (x < next_id ids)%Z.
Proof.
  unfold next_id. induction ids as [|y ids IH]; cbn [fold_right In]; [tauto|].
  intros [<-|Hx].
  - pose proof (Z.le_max_l y (fold_right Z.max 0%Z ids)). lia.
  - specialize (IH Hx). pose proof (Z.le_max_r y (fold_right Z.max 0%Z ids)). lia.
Qed.

Lemma get_item_In (s : DB) (pid : string) (it : FoodItem) :
  get_item s pid = Some it -> In it (food_items s).
Proof. unfold get_item. intros H. apply (find_some _ _ H). Qed.

Lemma revs_in_order_add_revision (s : DB) (r : ItemRevision) (i : Z) :
  revs_in_order (add_revision r s) i =
  revs_in_order s i ++ (if Z.eqb (item_id r) i then [r] else []).
Proof. unfold revs_in_order, add_revision. simpl. rewrite filter_app. reflexivity. Qed.

Lemma revs_in_order_In (s : DB) (i : Z) (r : ItemRevision) :
  In r (revs_in_order s i) <-> In r (item_revisions s) /\ item_id r = i.
Proof. unfold revs_in_order. rewrite filter_In, Z.eqb_eq. tauto. Qed.

(** [add_links] appends one row per pair, all pointing at the given revision. *)
Lemma add_links_spec (acc : list RevisionLink) (rid : Z) (pairs : list (string * option string)) :
  exists nw, add_links acc rid pairs = acc ++ nw /\ map link_content nw = pairs /\
             Forall (fun k => revision_id k = rid) nw.
Proof.
  revert acc. induction pairs as [|[u l] ps IH]; intros acc; simpl.
  - exists []. rewrite app_nil_r. auto.
  - destruct (IH (acc ++ [mkLink (next_id (map link_id acc)) rid u l])) as (nw & Heq & Hc & Hf).
    exists (mkLink (next_id (map link_id acc)) rid u l :: nw). rewrite Heq, <- app_assoc.
    simpl. rewrite Hc. auto.
Qed.

(** The links a fresh revision id receives are exactly the added pairs. *)
Lemma links_of_add_links_db (s : DB) (rid : Z) (pairs : list (string * option string)) :
  (forall k, In k (revision_links s) -> revision_id k <> rid) ->
  map link_content (links_of (add_links_db rid pairs s) rid) = pairs.
Proof.
  intros Hfresh. unfold links_of, add_links_db, set_links. simpl.
  destruct (add_links_spec (revision_links s) rid pairs) as (nw & -> & Hc & Hf).
  rewrite filter_app.
  replace (filter (fun k => Z.eqb (revision_id k) rid) (revision_links s)) with (@nil RevisionLink).
  2:{ symmetry. apply filter_all_false.
      intros k Hk. apply Z.eqb_neq. apply Hfresh. exact Hk. }
  simpl. rewrite <- Hc. f_equal. clear Hc Hfresh.
  induction Hf as [|k nw Hk Hf IH]; simpl; [reflexivity|].
  rewrite Hk, Z.eqb_refl. f_equal. exact IH.
Qed.

(** Adding links for one revision leaves the links of any other revision alone. *)
Lemma links_of_add_links_db_other (s : DB) (rid x : Z) (pairs : list (string * option string)) :
  x <> rid -> links_of (add_links_db rid pairs s) x = links_of s x.
Proof.
  intros Hx. unfold links_of, add_links_db, set_links. simpl.
  destruct (add_links_spec (revision_links s) rid pairs) as (nw & -> & Hc & Hf).
  rewrite filter_app.
  replace (filter (fun k => Z.eqb (revision_id k) x) nw) with (@nil RevisionLink).
  { rewrite app_nil_r. reflexivity. }
  symmetry. apply filter_all_false.
  intros k Hk. rewrite Forall_forall in Hf. rewrite (Hf k Hk). apply Z.eqb_neq. congruence.
Qed.

(** ** Contiguous revision numbers *)

Lemma contiguous_sorted (R : list ItemRevision) (k : nat) :
  map revision_num R = seq k (length R) -> sorted_by rev_num_le R = true.
Proof.
  revert k. induction R as [|x R IH]; intros k; simpl; [reflexivity|].
  intros H. injection H as Hx HR.
  destruct R as [|y R']; [reflexivity|].
  simpl in HR. injection HR as Hy HR'.
  change (rev_num_le x y && sorted_by rev_num_le (y :: R') = true).
  apply andb_true_iff. split.
  - unfold rev_num_le. rewrite Hx, Hy. apply Nat.leb_le. lia.
  - apply (IH (S k)). simpl. rewrite Hy, HR'. reflexivity.
Qed.

Lemma contiguous_latest (R : list ItemRevision) :
  R <> [] -> map revision_num R = seq 1 (length R) ->
  exists p, latest_revision (sort_by rev_num_le R) = Some p /\ In p R /\
            revision_num p = length R.
Proof.
  intros Hne Hseq.
  rewrite (sort_by_sorted _ _ (contiguous_sorted R 1 Hseq)).
  destruct (exists_last Hne) as (R' & p & ->).
  exists p. unfold latest_revision. rewrite last_opt_app_last.
  split; [reflexivity|]. split; [apply in_or_app; right; left; reflexivity|].
  rewrite map_app, length_app in Hseq. simpl in Hseq.
  rewrite Nat.add_1_r, seq_S in Hseq. apply app_inj_tail in Hseq as [_ Hp].
  rewrite length_app. simpl. lia.
Qed.

(** ** The invariant of reachable databases *)

Lemma Inv_ext (s s' : DB) :
  food_items s' = food_items s -> item_revisions s' = item_revisions s ->
  revision_links s' = revision_links s -> Inv s -> Inv s'.
Proof.
  intros Hi Hr Hl [Ho He Hn Hk]. split; unfold revs_in_order in *;
  rewrite ?Hi, ?Hr, ?Hl; assumption.
Qed.

Lemma Inv_empty : Inv empty_db.
Proof. split; simpl; tauto. Qed.

(** Appending the next revision of an existing item. *)
Lemma Inv_append (s : DB) (it : FoodItem) (r : ItemRevision) :
  Inv s -> In it (food_items s) -> item_id r = fi_id it ->
  revision_num r = S (length (revs_in_order s (fi_id it))) ->
  expiration_date r <> None -> Inv (add_revision r s).
Proof.
  intros [Ho He Hn Hk] Hit Hid Hnum Hexp. split; simpl.
  - intros x Hx. apply in_app_or in Hx as [Hx|[<-|[]]]; [apply Ho; exact Hx|].
    exists it. auto.
  - intros x Hx. apply in_app_or in Hx as [Hx|[<-|[]]]; [apply He; exact Hx|exact Hexp].
  - intros it' Hit'. rewrite revs_in_order_add_revision.
    destruct (Z.eqb (item_id r) (fi_id it')) eqn:E.
    + apply Z.eqb_eq in E. rewrite Hid in E. rewrite <- E in *.
      destruct (Hn it Hit) as [_ Hseq]. split; [destruct (revs_in_order s (fi_id it)); discriminate|].
      rewrite map_app, length_app, Hseq. simpl. rewrite Nat.add_1_r, seq_S, Hnum. reflexivity.
    + rewrite app_nil_r. apply Hn. exact Hit'.
  - intros k Hk'. destruct (Hk k Hk') as (x & Hx & Heq). exists x. split; [|exact Heq].
    apply in_or_app. left. exact Hx.
Qed.

(** Appending revision 1 of an item row added with a fresh id. *)
Lemma Inv_create (s s2 : DB) (iid : Z) (pid : string) (r : ItemRevision) :
  Inv s -> (forall it, In it (food_items s) -> fi_id it <> iid) ->
  food_items s2 = food_items s ++ [mkItem iid pid] ->
  item_revisions s2 = item_revisions s -> revision_links s2 = revision_links s ->
  item_id r = iid -> revision_num r = 1 -> expiration_date r <> None ->
  Inv (add_revision r s2).
Proof.
  intros [Ho He Hn Hk] Hfresh Hi Hr Hl Hid Hnum Hexp.
  assert (Hnone : revs_in_order s iid = []).
  { apply filter_all_false. intros x Hx. apply Z.eqb_neq. intros Heq.
    destruct (Ho x Hx) as (it & Hit & Hid'). apply (Hfresh it Hit). congruence. }
  split; simpl; rewrite ?Hi, ?Hr, ?Hl.
  - intros x Hx. apply in_app_or in Hx as [Hx|[<-|[]]].
    + destruct (Ho x Hx) as (it & Hit & E). exists it. split; [apply in_or_app; left|]; assumption.
    + exists (mkItem iid pid). split; [apply in_or_app; right; left; reflexivity|exact (eq_sym Hid)].
  - intros x Hx. apply in_app_or in Hx as [Hx|[<-|[]]]; [apply He; exact Hx|exact Hexp].
  - intros it' Hit'. unfold revs_in_order. simpl. rewrite Hr. fold (revs_in_order s (fi_id it')).
    rewrite filter_app. fold (revs_in_order s (fi_id it')). simpl.
    apply in_app_or in Hit' as [Hit'|[<-|[]]].
    + assert (E : Z.eqb (item_id r) (fi_id it') = false)
        by (apply Z.eqb_neq; rewrite Hid; intros E; apply (Hfresh it' Hit'); congruence).
      rewrite E, app_nil_r. apply Hn. exact Hit'.
    + simpl. rewrite Hnone, Hid, Z.eqb_refl. simpl. rewrite Hnum.
      split; [discriminate|reflexivity].
  - intros k Hk'. destruct (Hk k Hk') as (x & Hx & Heq). exists x. split; [|exact Heq].
    apply in_or_app. left. exact Hx.
Qed.

(** Links added for a revision that is in the table. *)
Lemma Inv_add_links (s : DB) (r : ItemRevision) (pairs : list (string * option string)) :
  Inv s -> In r (item_revisions s) -> Inv (add_links_db (rev_id r) pairs s).
Proof.
  intros [Ho He Hn Hk] Hr. unfold add_links_db, set_links.
  destruct (add_links_spec (revision_links s) (rev_id r) pairs) as (nw & Heq & _ & Hf).
  split; simpl; try assumption. rewrite Heq.
  intros k Hk'. apply in_app_or in Hk' as [Hk'|Hk']; [apply Hk; exact Hk'|].
  rewrite Forall_forall in Hf. exists r. split; [exact Hr|]. symmetry. apply Hf. exact Hk'.
Qed.

(** What the handlers read as [item.latest_revision] in an invariant state. *)
Lemma Inv_latest (s : DB) (it : FoodItem) :
  Inv s -> In it (food_items s) ->
  exists p, latest_revision (item_revs s (fi_id it)) = Some p /\
            In p (item_revisions s) /\ item_id p = fi_id it /\
            revision_num p = length (revs_in_order s (fi_id it)).
Proof.
  intros HI Hit. destruct (inv_nums s HI it Hit) as [Hne Hseq].
  destruct (contiguous_latest _ Hne Hseq) as (p & Hl & Hp & Hn).
  exists p. apply revs_in_order_In in Hp as [Hp Hid]. auto.
Qed.

(** [item.revisions] is the insertion order in an invariant state. *)
Lemma Inv_item_revs (s : DB) (it : FoodItem) :
  Inv s -> In it (food_items s) -> item_revs s (fi_id it) = revs_in_order s (fi_id it).
Proof.
  intros HI Hit. destruct (inv_nums s HI it Hit) as [_ Hseq].
  apply sort_by_sorted. exact (contiguous_sorted _ 1 Hseq).
Qed.

Lemma same_rows_fold {A} (g : DB -> A -> DB) (l : list A) (s : DB) :
  (forall acc x, same_rows acc (g acc x)) -> same_rows s (fold_left g l s).
Proof.
  intros Hg. revert s. induction l as [|x l IH]; intros s; simpl.
  - unfold same_rows. auto.
  - destruct (Hg s x) as (H1 & H2 & H3). destruct (IH (g s x)) as (H4 & H5 & H6).
    unfold same_rows. rewrite H4, H5, H6. auto.
Qed.

Lemma same_rows_startup (s : DB) : same_rows s (on_startup s).
Proof.
  unfold on_startup, seed_tags, seed_locations.
  destruct (same_rows_fold
              (fun acc n => if existsb (String.eqb n) (map loc_name (storage_locations s))
                            then acc else add_location n acc) DEFAULT_LOCATIONS s)
    as (H1 & H2 & H3).
  { intros acc x. destruct existsb; unfold same_rows; auto. }
  match goal with |- same_rows _ (fold_left ?g ?l ?s0) =>
    destruct (same_rows_fold g l s0) as (H4 & H5 & H6) end.
  { intros acc x. destruct existsb; unfold same_rows; auto. }
  unfold same_rows. rewrite H4, H5, H6, H1, H2, H3. auto.
Qed.

Lemma Inv_same (s s' : DB) : same_rows s s' -> Inv s -> Inv s'.
Proof. intros (H1 & H2 & H3). apply Inv_ext; assumption. Qed.

Lemma revs_in_order_same (s s' : DB) (i : Z) :
  same_rows s s' -> revs_in_order s' i = revs_in_order s i.
Proof. intros (_ & H & _). unfold revs_in_order. rewrite H. reflexivity. Qed.

Lemma latest_active_In (l : list ItemRevision) (a : ItemRevision) :
  latest_active_revision l = Some a -> In a l /\ is_deleted a = false.
Proof.
  unfold latest_active_revision. intros H. apply find_some in H as [H1 H2].
  apply in_rev in H1. split; [exact H1|]. apply negb_true_iff. exact H2.
Qed.

Lemma item_revs_In (s : DB) (i : Z) (r : ItemRevision) :
  In r (item_revs s i) -> In r (item_revisions s) /\ item_id r = i.
Proof. unfold item_revs. rewrite In_sort_by. apply revs_in_order_In. Qed.

(** The next revision of an item, appended to a database whose rows are those
    of an invariant one, then its links. *)
Lemma Inv_next_revision (s s1 : DB) (it : FoodItem) (r : ItemRevision)
    (pairs : list (string * option string)) :
  Inv s -> same_rows s s1 -> In it (food_items s) -> item_id r = fi_id it ->
  revision_num r = S (length (revs_in_order s (fi_id it))) ->
  expiration_date r <> None ->
  Inv (add_links_db (rev_id r) pairs (add_revision r s1)).
Proof.
  intros HI Hs Hit Hid Hn He. apply Inv_add_links.
  - apply (Inv_append s1 it r (Inv_same s s1 Hs HI)).
    + destruct Hs as (H1 & _ & _). rewrite H1. exact Hit.
    + exact Hid.
    + rewrite (revs_in_order_same s s1 _ Hs). exact Hn.
    + exact He.
  - simpl. apply in_or_app. right. left. reflexivity.
Qed.

Lemma same_rows_refl (s : DB) : same_rows s s.
Proof. unfold same_rows. auto. Qed.

Lemma same_rows_tags (s : DB) (iid : Z) (ts : list Tag) : same_rows s (set_item_tags iid ts s).
Proof. unfold same_rows. auto. Qed.

Ltac next_revision_with s it :=
  match goal with
  | |- Inv (add_links_db _ ?ps (add_revision ?r ?s0)) =>
      apply (Inv_next_revision s s0 it r ps)
  end.

Lemma step_Inv (s s' : DB) : Inv s -> step s s' -> Inv s'.
Proof.
  intros HI Hst. destruct Hst as [s|n s|f pid s|pid f s|pid a u today s|pid today s|pid s|pid f s].
  - (* startup *)
    exact (Inv_same s _ (same_rows_startup s) HI).
  - (* create_location *)
    unfold create_location. destruct String.eqb; [exact HI|].
    destruct existsb; [exact HI|]. apply (Inv_same s); [|exact HI]. unfold same_rows. auto.
  - (* create_item *)
    unfold create_item. destruct (photo_step (f_photo f)) as [pe pf].
    destruct (exp_overflow f); [exact HI|].
    destruct (attr_errors f ++ pe); [|exact HI].
    destruct existsb; [exact HI|]. simpl snd.
    match goal with
    | |- Inv (add_links_db _ ?ps (add_revision ?r ?s0)) =>
        apply (Inv_add_links (add_revision r s0) r ps)
    end.
    + apply (Inv_create s _ (next_id (map fi_id (food_items s))) pid); try exact HI.
      * intros it Hit E. pose proof (next_id_gt (map fi_id (food_items s)) (fi_id it)
                                        (in_map _ _ _ Hit)). lia.
      * destruct (f_tag_ids f); reflexivity.
      * destruct (f_tag_ids f); reflexivity.
      * destruct (f_tag_ids f); reflexivity.
      * reflexivity.
      * reflexivity.
      * simpl. discriminate.
    + simpl. apply in_or_app. right. left. reflexivity.
  - (* save_edit *)
    unfold save_edit. destruct (get_item s pid) as [it|] eqn:G; [|exact HI].
    destruct (exp_overflow f); [exact HI|].
    pose proof (get_item_In _ _ _ G) as Hit.
    destruct (Inv_latest s it HI Hit) as (p & Hl & Hp & Hid & Hn). rewrite Hl.
    match goal with |- Inv (snd (match ?t with pair _ _ => _ end)) => destruct t as [pe pf] end.
    destruct (attr_errors f ++ pe); [|exact HI]. simpl snd.
    next_revision_with s it; try exact HI; try exact Hit.
    + destruct (f_tag_ids f); apply same_rows_tags.
    + reflexivity.
    + simpl. rewrite Hn. reflexivity.
    + simpl. discriminate.
  - (* update_amount *)
    unfold update_amount. destruct (get_item s pid) as [it|] eqn:G; [|exact HI].
    pose proof (get_item_In _ _ _ G) as Hit.
    destruct (Inv_latest s it HI Hit) as (p & Hl & Hp & Hid & Hn). rewrite Hl. simpl snd.
    next_revision_with s it; try exact HI; try exact Hit.
    + apply same_rows_refl.
    + reflexivity.
    + simpl. rewrite Hn. reflexivity.
    + simpl. apply (inv_exp s HI). exact Hp.
  - (* soft_delete *)
    unfold soft_delete. destruct (get_item s pid) as [it|] eqn:G; [|exact HI].
    pose proof (get_item_In _ _ _ G) as Hit.
    destruct (Inv_latest s it HI Hit) as (p & Hl & Hp & Hid & Hn). rewrite Hl. simpl snd.
    apply (Inv_same (add_links_db (next_id (map rev_id (item_revisions s))) []
                       (add_revision (mkRev (next_id (map rev_id (item_revisions s))) (fi_id it)
                          (next_num (Some p)) (name p) (date_prepared p) (expiration_date p)
                          (storage_location_id p) (photo_filename p) (notes p) (amount p)
                          (amount_unit p) true) s))).
    + unfold same_rows. simpl. auto.
    + next_revision_with s it; try exact HI; try exact Hit.
      * apply same_rows_refl.
      * reflexivity.
      * simpl. rewrite Hn. reflexivity.
      * simpl. apply (inv_exp s HI). exact Hp.
  - (* restore_item *)
    unfold restore_item. destruct (get_item s pid) as [it|] eqn:G; [|exact HI].
    pose proof (get_item_In _ _ _ G) as Hit.
    destruct (Inv_latest s it HI Hit) as (p & Hl & Hp & Hid & Hn).
    assert (Hsrc : exists src, restore_source (item_revs s (fi_id it)) = Some src /\
                               In src (item_revisions s)).
    { unfold restore_source. destruct (latest_active_revision _) as [a|] eqn:La.
      - exists a. split; [reflexivity|].
        apply latest_active_In in La as [La _]. apply item_revs_In in La. tauto.
      - exists p. rewrite Hl. auto. }
    destruct Hsrc as (src & Hs & Hsin). rewrite Hs, Hl. simpl snd.
    next_revision_with s it; try exact HI; try exact Hit.
    + apply same_rows_refl.
    + reflexivity.
    + simpl. rewrite Hn. reflexivity.
    + simpl. apply (inv_exp s HI). exact Hsin.
  - (* reuse_label *)
    unfold reuse_label. destruct (get_item s pid) as [it|] eqn:G; [|exact HI].
    destruct (exp_overflow f); [exact HI|].
    pose proof (get_item_In _ _ _ G) as Hit.
    destruct (Inv_latest s it HI Hit) as (p & Hl & Hp & Hid & Hn). rewrite Hl.
    destruct (photo_step (f_photo f)) as [pe pf].
    destruct (attr_errors f ++ pe); [|exact HI]. simpl snd.
    next_revision_with s it; try exact HI; try exact Hit.
    + apply same_rows_refl.
    + reflexivity.
    + simpl. rewrite Hn. reflexivity.
    + simpl. discriminate.
Qed.

Lemma reachable_Inv (s : DB) : reachable s -> Inv s.
Proof.
  induction 1 as [|s s' _ IH Hst]; [exact Inv_empty|]. exact (step_Inv s s' IH Hst).
Qed.

(** ** What the revision-appending handlers write *)

Lemma fresh_rev_id (s : DB) (r : ItemRevision) :
  In r (item_revisions s) -> rev_id r <> next_id (map rev_id (item_revisions s)).
Proof.
  intros Hr E. pose proof (next_id_gt _ _ (in_map rev_id _ _ Hr)). lia.
Qed.

Lemma fresh_rev_links (s : DB) :
  Inv s -> forall k, In k (revision_links s) ->
  revision_id k <> next_id (map rev_id (item_revisions s)).
Proof.
  intros HI k Hk. destruct (inv_links s HI k Hk) as (r & Hr & <-). apply fresh_rev_id. exact Hr.
Qed.

Lemma links_of_add_revision (s : DB) (r : ItemRevision) (x : Z) :
  links_of (add_revision r s) x = links_of s x.
Proof. reflexivity. Qed.

Lemma soft_delete_spec (s : DB) (pid : string) (it : FoodItem) (today : Z) :
  Inv s -> get_item s pid = Some it ->
  exists p d,
    latest_revision (item_revs s (fi_id it)) = Some p /\ In p (item_revisions s) /\
    snd (soft_delete pid today s) = add_revision d s /\
    item_id d = fi_id it /\ rev_id d = next_id (map rev_id (item_revisions s)) /\
    revision_num d = S (length (revs_in_order s (fi_id it))) /\
    is_deleted d = true /\ displayable d = displayable p.
Proof.
  intros HI G. pose proof (get_item_In _ _ _ G) as Hit.
  destruct (Inv_latest s it HI Hit) as (p & Hl & Hp & Hid & Hn).
  unfold soft_delete. rewrite G, Hl. simpl snd.
  eexists p, _. split; [reflexivity|]. split; [exact Hp|]. split; [reflexivity|].
  simpl. rewrite Hn. repeat split.
Qed.

Lemma restore_item_spec (s : DB) (pid : string) (it : FoodItem) :
  Inv s -> get_item s pid = Some it ->
  exists src fin,
    restore_source (item_revs s (fi_id it)) = Some src /\ In src (item_revisions s) /\
    snd (restore_item pid s) =
      add_links_db (rev_id fin) (map link_content (links_of (add_revision fin s) (rev_id src)))
                   (add_revision fin s) /\
    item_id fin = fi_id it /\ rev_id fin = next_id (map rev_id (item_revisions s)) /\
    revision_num fin = S (length (revs_in_order s (fi_id it))) /\
    is_deleted fin = false /\ displayable fin = displayable src.
Proof.
  intros HI G. pose proof (get_item_In _ _ _ G) as Hit.
  destruct (Inv_latest s it HI Hit) as (p & Hl & Hp & Hid & Hn).
  assert (Hsrc : exists src, restore_source (item_revs s (fi_id it)) = Some src /\
                             In src (item_revisions s)).
  { unfold restore_source. destruct (latest_active_revision _) as [a|] eqn:La.
    - exists a. split; [reflexivity|].
      apply latest_active_In in La as [La _]. apply item_revs_In in La. tauto.
    - exists p. rewrite Hl. auto. }
  destruct Hsrc as (src & Hs & Hsin).
  unfold restore_item. rewrite G, Hs, Hl. simpl snd.
  exists src, (mkRev (next_id (map rev_id (item_revisions s))) (fi_id it) (S (revision_num p))
                (name src) (date_prepared src) (expiration_date src)
                (storage_location_id src) (photo_filename src) (notes src) (amount src)
                (amount_unit src) false).
  split; [reflexivity|]. split; [exact Hsin|]. split; [reflexivity|].
  simpl. rewrite Hn. repeat split.
Qed.

(** ** A reachable database for the witnesses *)

Lemma demo_db_reachable : reachable demo_db.
Proof.
  eapply reach_step; [eapply reach_step; [apply reach_init|apply step_startup]|].
  apply step_create.
Qed.

Lemma demo_get_item : get_item demo_db "tok" = Some demo_item.
Proof. vm_compute. reflexivity. Qed.

(* ------------------------------------------------------------------ *)
(** ** C5: revision numbers *)

(** C5: In every reachable database, the revision_num values of every item's
    revisions, taken in creation (insertion) order, are exactly 1..N with N
    the number of its revisions; every writing handler (create, edit, quick
    amount update, soft delete, restore, reuse, and the location and seed
    writes) keeps this so. *)
Theorem revision_nums_contiguous (s : DB) :
  reachable s -> contiguous s /\ (forall s', step s s' -> contiguous s').
Proof.
  intros Hr. pose proof (reachable_Inv s Hr) as HI. split.
  - intros it Hit. apply (inv_nums s HI it Hit).
  - intros s' Hst it Hit. apply (inv_nums s' (step_Inv s s' HI Hst) it Hit).
Qed.

Lemma revision_nums_contiguous_witness :
  reachable demo_db /\ contiguous demo_db /\
  (forall s', step demo_db s' -> contiguous s').
Proof.
  split; [exact demo_db_reachable|].
  apply (revision_nums_contiguous demo_db). exact demo_db_reachable.
Defined.

(* ------------------------------------------------------------------ *)
(** ** C6: soft delete, then restore *)

Lemma revs_in_order_add_links_db (s : DB) (rid : Z) (ps : list (string * option string)) (i : Z) :
  revs_in_order (add_links_db rid ps s) i = revs_in_order s i.
Proof. reflexivity. Qed.

Lemma restore_source_after_delete (R : list ItemRevision) (d : ItemRevision) :
  is_deleted d = true ->
  restore_source (R ++ [d]) =
  match latest_active_revision R with Some a => Some a | None => Some d end.
Proof.
  intros Hd. unfold restore_source, latest_active_revision.
  rewrite rev_app_distr. simpl. rewrite Hd. simpl.
  destruct (find _ (rev R)); [reflexivity|].
  unfold latest_revision. apply last_opt_app_last.
Qed.

(** C6: For every item of a reachable database (it has at least one
    revision), soft-deleting it and then restoring it adds exactly two
    revisions; the final revision, which is the item's latest, has
    is_deleted = false (so the item is no longer deleted), carries the
    displayable fields of the restore source (the latest active revision at
    restore time, or the latest revision when none is active) and links with
    the same contents as the source's.  Seen from before the delete, that
    source has the fields of the item's latest active revision, or of its
    latest revision when none is active. *)
Theorem delete_then_restore (s : DB) (pid : string) (it : FoodItem) (today : Z) :
  reachable s -> get_item s pid = Some it ->
  let s1 := snd (soft_delete pid today s) in
  let s2 := snd (restore_item pid s1) in
  length (revs_in_order s2 (fi_id it)) = length (revs_in_order s (fi_id it)) + 2 /\
  exists src fin,
    restore_source (item_revs s1 (fi_id it)) = Some src /\
    latest_revision (item_revs s2 (fi_id it)) = Some fin /\
    is_deleted fin = false /\ item_is_deleted (item_revs s2 (fi_id it)) = false /\
    displayable fin = displayable src /\
    map link_content (links_of s2 (rev_id fin)) = map link_content (links_of s2 (rev_id src)) /\
    (exists pre, restore_source (item_revs s (fi_id it)) = Some pre /\
                 displayable src = displayable pre).
Proof.
  intros Hr G s1 s2. pose proof (reachable_Inv s Hr) as HI.
  pose proof (get_item_In _ _ _ G) as Hit.
  pose proof (step_Inv s s1 HI (step_delete pid today s)) as HI1.
  pose proof (step_Inv s1 s2 HI1 (step_restore pid s1)) as HI2.
  destruct (soft_delete_spec s pid it today HI G)
    as (p & d & Hl & Hp & Hs1 & Hdi & Hdr & Hdn & Hdd & Hdisp).
  fold s1 in Hs1.
  assert (G1 : get_item s1 pid = Some it) by (rewrite Hs1; exact G).
  assert (Hit1 : In it (food_items s1)) by (rewrite Hs1; exact Hit).
  destruct (restore_item_spec s1 pid it HI1 G1)
    as (src & fin & Hsrc & Hsin & Hs2 & Hfi & Hfr & Hfn & Hfd & Hfdisp).
  fold s2 in Hs2.
  assert (Hit2 : In it (food_items s2)) by (rewrite Hs2; exact Hit1).
  assert (E1 : revs_in_order s1 (fi_id it) = revs_in_order s (fi_id it) ++ [d]).
  { rewrite Hs1, revs_in_order_add_revision, Hdi, Z.eqb_refl. reflexivity. }
  assert (E2 : revs_in_order s2 (fi_id it) = (revs_in_order s (fi_id it) ++ [d]) ++ [fin]).
  { rewrite Hs2, revs_in_order_add_links_db, revs_in_order_add_revision, Hfi, Z.eqb_refl, E1.
    reflexivity. }
  split.
  { rewrite E2, !length_app. simpl. lia. }
  assert (Hlast : latest_revision (item_revs s2 (fi_id it)) = Some fin).
  { rewrite (Inv_item_revs s2 it HI2 Hit2), E2. apply last_opt_app_last. }
  exists src, fin. split; [exact Hsrc|]. split; [exact Hlast|]. split; [exact Hfd|].
  split; [unfold item_is_deleted; rewrite Hlast; exact Hfd|].
  split; [exact Hfdisp|]. split.
  - rewrite Hs2, Hfr.
    rewrite (links_of_add_links_db_other _ _ (rev_id src))
      by (apply fresh_rev_id; exact Hsin).
    apply links_of_add_links_db. intros k Hk. apply (fresh_rev_links s1 HI1 k Hk).
  - rewrite (Inv_item_revs s1 it HI1 Hit1), E1, restore_source_after_delete in Hsrc by exact Hdd.
    rewrite (Inv_item_revs s it HI Hit). rewrite (Inv_item_revs s it HI Hit) in Hl.
    unfold restore_source. destruct (latest_active_revision (revs_in_order s (fi_id it))) as [a|].
    + exists a. inversion Hsrc. auto.
    + exists p. inversion Hsrc; subst. auto.
Qed.

Lemma delete_then_restore_witness :
  reachable demo_db /\ get_item demo_db "tok" = Some demo_item /\
  (let s1 := snd (soft_delete "tok" 738001%Z demo_db) in
   let s2 := snd (restore_item "tok" s1) in
   length (revs_in_order s2 (fi_id demo_item)) = length (revs_in_order demo_db (fi_id demo_item)) + 2 /\
   exists src fin,
     restore_source (item_revs s1 (fi_id demo_item)) = Some src /\
     latest_revision (item_revs s2 (fi_id demo_item)) = Some fin /\
     is_deleted fin = false /\ item_is_deleted (item_revs s2 (fi_id demo_item)) = false /\
     displayable fin = displayable src /\
     map link_content (links_of s2 (rev_id fin)) = map link_content (links_of s2 (rev_id src)) /\
     (exists pre, restore_source (item_revs demo_db (fi_id demo_item)) = Some pre /\
                  displayable src = displayable pre)).
Proof.
  split; [exact demo_db_reachable|]. split; [vm_compute; reflexivity|].
  apply (delete_then_restore demo_db "tok" demo_item 738001%Z demo_db_reachable).
  vm_compute. reflexivity.
Defined.

(* ------------------------------------------------------------------ *)
(** ** C9: links under soft delete and quick amount update *)

Lemma update_amount_spec (s : DB) (pid : string) (it : FoodItem) (amt : option QArith_base.Q)
    (unit : string) (today : Z) :
  Inv s -> get_item s pid = Some it ->
  exists p u,
    latest_revision (item_revs s (fi_id it)) = Some p /\
    snd (update_amount pid amt unit today s) =
      add_links_db (rev_id u) (map link_content (links_of (add_revision u s) (rev_id p)))
                   (add_revision u s) /\
    item_id u = fi_id it /\ rev_id u = next_id (map rev_id (item_revisions s)) /\
    name u = name p /\ date_prepared u = date_prepared p /\
    expiration_date u = expiration_date p /\ storage_location_id u = storage_location_id p /\
    photo_filename u = photo_filename p /\ notes u = notes p /\
    amount u = amt /\ amount_unit u = strip_or_none unit /\ is_deleted u = is_deleted p.
Proof.
  intros HI G. pose proof (get_item_In _ _ _ G) as Hit.
  destruct (Inv_latest s it HI Hit) as (p & Hl & Hp & Hid & Hn).
  unfold update_amount. rewrite G, Hl. simpl snd.
  exists p, (mkRev (next_id (map rev_id (item_revisions s))) (fi_id it) (S (revision_num p))
               (name p) (date_prepared p) (expiration_date p) (storage_location_id p)
               (photo_filename p) (notes p) amt (strip_or_none unit) (is_deleted p)).
  split; [reflexivity|]. split; [reflexivity|]. repeat split.
Qed.

(** C9: For an item of a reachable database whose latest revision p has
    links, the revision soft delete appends is a copy of p's displayable
    fields (name, dates, location, photo, notes, amount and unit) with
    is_deleted = true and no links at all, whereas the revision the quick
    amount update appends carries links with the same contents as p's. *)
Theorem soft_delete_drops_links (s : DB) (pid : string) (it : FoodItem) (p : ItemRevision)
    (today : Z) (amt : option QArith_base.Q) (unit : string) :
  reachable s -> get_item s pid = Some it ->
  latest_revision (item_revs s (fi_id it)) = Some p -> links_of s (rev_id p) <> [] ->
  (exists d,
     item_revisions (snd (soft_delete pid today s)) = item_revisions s ++ [d] /\
     is_deleted d = true /\ displayable d = displayable p /\
     links_of (snd (soft_delete pid today s)) (rev_id d) = []) /\
  (exists u,
     item_revisions (snd (update_amount pid amt unit today s)) = item_revisions s ++ [u] /\
     map link_content (links_of (snd (update_amount pid amt unit today s)) (rev_id u)) =
     map link_content (links_of s (rev_id p))).
Proof.
  intros Hr G Hp0 _. pose proof (reachable_Inv s Hr) as HI. split.
  - destruct (soft_delete_spec s pid it today HI G)
      as (p' & d & Hl & Hp & Hs1 & Hdi & Hdr & Hdn & Hdd & Hdisp).
    rewrite Hp0 in Hl. injection Hl as <-.
    exists d. rewrite Hs1. split; [reflexivity|]. split; [exact Hdd|]. split; [exact Hdisp|].
    rewrite links_of_add_revision. unfold links_of. apply filter_all_false.
    intros k Hk. apply Z.eqb_neq. rewrite Hdr. apply (fresh_rev_links s HI k Hk).
  - destruct (update_amount_spec s pid it amt unit today HI G)
      as (p' & u & Hl & Hs1 & Hui & Hur & _).
    rewrite Hp0 in Hl. injection Hl as <-.
    exists u. rewrite Hs1. split; [reflexivity|].
    rewrite links_of_add_links_db by (intros k Hk; rewrite Hur; apply (fresh_rev_links s HI k Hk)).
    reflexivity.
Qed.

Lemma soft_delete_drops_links_witness :
  reachable demo_db /\ get_item demo_db "tok" = Some demo_item /\
  latest_revision (item_revs demo_db (fi_id demo_item)) = Some demo_rev1 /\
  links_of demo_db (rev_id demo_rev1) <> [] /\
  ((exists d,
      item_revisions (snd (soft_delete "tok" 738001%Z demo_db)) = item_revisions demo_db ++ [d] /\
      is_deleted d = true /\ displayable d = displayable demo_rev1 /\
      links_of (snd (soft_delete "tok" 738001%Z demo_db)) (rev_id d) = []) /\
   (exists u,
      item_revisions (snd (update_amount "tok" None "" 738001%Z demo_db)) =
        item_revisions demo_db ++ [u] /\
      map link_content (links_of (snd (update_amount "tok" None "" 738001%Z demo_db)) (rev_id u)) =
      map link_content (links_of demo_db (rev_id demo_rev1)))).
Proof.
  split; [exact demo_db_reachable|].
  split; [vm_compute; reflexivity|].
  split; [vm_compute; reflexivity|].
  split; [vm_compute; discriminate|].
  apply (soft_delete_drops_links demo_db "tok" demo_item demo_rev1 738001%Z None "");
    [exact demo_db_reachable | vm_compute; reflexivity | vm_compute; reflexivity
    | vm_compute; discriminate].
Defined.

(* ------------------------------------------------------------------ *)
(** ** C10: reuse does not look at the deletion state *)

(** C10 (counterexample): a reuse submission of the existing, non-deleted
    demo item that passes validation but has no expiration date and a
    preparation date of 9999-12-27 appends no revision: the default
    expiration [date_prepared + 7 days] passes [date.max], the handler
    raises (HTTP 500) and the database is left as it was. *)
Lemma reuse_date_overflow :
  get_item demo_db "tok" = Some demo_item /\
  item_is_deleted (item_revs demo_db (fi_id demo_item)) = false /\
  attr_errors overflow_reuse_form ++ fst (photo_step (f_photo overflow_reuse_form)) = [] /\
  exp_overflow overflow_reuse_form = true /\
  reuse_label "tok" overflow_reuse_form demo_db = (ServerError, demo_db).
Proof. repeat split; vm_compute; reflexivity. Qed.

(** C10 (amended): For every existing item, deleted or not, a reuse
    submission that passes validation redirects to the item and appends one
    revision built from the submitted values only (the number follows the
    latest revision), with is_deleted = false, unless no expiration date was
    submitted and [date_prepared + 7 days] passes [date.max]: then the
    handler raises (HTTP 500) and stores nothing, again whatever the
    deletion state. The POST handler never consults the item's deletion
    state, while the GET reuse page redirects away from an item that is not
    deleted. *)
Theorem reuse_without_deletion_check (s : DB) (pid : string) (it : FoodItem) (f : ItemForm) :
  get_item s pid = Some it ->
  attr_errors f ++ fst (photo_step (f_photo f)) = [] ->
  (exp_overflow f = true -> reuse_label pid f s = (ServerError, s)) /\
  (exp_overflow f = false ->
  fst (reuse_label pid f s) = Redirect ("/i/" ++ pid) /\
  (exists r,
     item_revisions (snd (reuse_label pid f s)) = item_revisions s ++ [r] /\
     item_id r = fi_id it /\
     revision_num r = next_num (latest_revision (item_revs s (fi_id it))) /\
     name r = strip (f_name f) /\ date_prepared r = f_date_prepared f /\
     expiration_date r = Some (exp_of f) /\
     storage_location_id r = f_storage_location_id f /\
     photo_filename r = snd (photo_step (f_photo f)) /\
     notes r = strip_or_none (f_notes f) /\ amount r = f_amount f /\
     amount_unit r = strip_or_none (f_amount_unit f) /\ is_deleted r = false)) /\
  (item_is_deleted (item_revs s (fi_id it)) = false -> reuse_form pid s = Redirect ("/i/" ++ pid)).
Proof.
  intros G Herr. unfold reuse_label, reuse_form. rewrite G.
  split; [intros Ho; rewrite Ho; reflexivity|]. split.
  - intros Ho. rewrite Ho.
    destruct (photo_step (f_photo f)) as [pe pf]. simpl in Herr. rewrite Herr.
    split; [reflexivity|]. eexists. split; [reflexivity|]. repeat split.
  - intros Hd. rewrite Hd. reflexivity.
Qed.

Lemma reuse_without_deletion_check_witness :
  get_item demo_db "tok" = Some demo_item /\
  attr_errors reuse_demo_form ++ fst (photo_step (f_photo reuse_demo_form)) = [] /\
  item_is_deleted (item_revs demo_db (fi_id demo_item)) = false /\
  ((exp_overflow reuse_demo_form = true ->
    reuse_label "tok" reuse_demo_form demo_db = (ServerError, demo_db)) /\
   (exp_overflow reuse_demo_form = false ->
   fst (reuse_label "tok" reuse_demo_form demo_db) = Redirect ("/i/" ++ "tok") /\
   (exists r,
      item_revisions (snd (reuse_label "tok" reuse_demo_form demo_db)) =
        item_revisions demo_db ++ [r] /\
      item_id r = fi_id demo_item /\
      revision_num r = next_num (latest_revision (item_revs demo_db (fi_id demo_item))) /\
      name r = strip (f_name reuse_demo_form) /\
      date_prepared r = f_date_prepared reuse_demo_form /\
      expiration_date r = Some (exp_of reuse_demo_form) /\
      storage_location_id r = f_storage_location_id reuse_demo_form /\
      photo_filename r = snd (photo_step (f_photo reuse_demo_form)) /\
      notes r = strip_or_none (f_notes reuse_demo_form) /\
      amount r = f_amount reuse_demo_form /\
      amount_unit r = strip_or_none (f_amount_unit reuse_demo_form) /\ is_deleted r = false)) /\
   (item_is_deleted (item_revs demo_db (fi_id demo_item)) = false ->
    reuse_form "tok" demo_db = Redirect ("/i/" ++ "tok"))).
Proof.
  split; [vm_compute; reflexivity|].
  split; [vm_compute; reflexivity|].
  split; [vm_compute; reflexivity|].
  apply reuse_without_deletion_check; vm_compute; reflexivity.
Defined.

(* ------------------------------------------------------------------ *)
(** ** The dashboard query *)

Lemma le_fold_max (l : list nat) (x : nat) : In x l -> x <= fold_right Nat.max 0 l.
Proof.
  induction l as [|y l IH]; simpl; [tauto|]. intros [<-|Hx]; [lia|]. specialize (IH Hx). lia.
Qed.

(** A row of the join with [latest_rev_sq] has the largest number of its item. *)
Lemma latest_rows_max (s : DB) (r : ItemRevision) :
  In r (latest_rows s) ->
  In r (item_revisions s) /\
  forall r', In r' (item_revisions s) -> item_id r' = item_id r -> revision_num r' <= revision_num r.
Proof.
  unfold latest_rows. rewrite filter_In, Nat.eqb_eq. intros [Hr Hmax]. split; [exact Hr|].
  intros r' Hr' Hid. rewrite Hmax. unfold max_rev_num. apply le_fold_max.
  apply in_map. apply revs_in_order_In. auto.
Qed.

(** Membership in the listing: a latest row that passes the three filters. *)
Lemma In_dashboard_revisions (s : DB) (q : string) (location : option Z) (show_deleted : bool)
    (r : ItemRevision) :
  In r (dashboard_revisions s q location show_deleted) <->
  In r (latest_rows s) /\ (show_deleted = true \/ is_deleted r = false) /\
  (q = ""%string \/ ilike (name r) ("%" ++ q ++ "%") = true) /\
  (forall l, location = Some l -> l <> 0%Z -> storage_location_id r = l).
Proof.
  unfold dashboard_revisions. rewrite In_sort_by.
  assert (Hloc : forall rows,
    In r (match location with
          | Some l => if Z.eqb l 0 then rows
                      else filter (fun r => Z.eqb (storage_location_id r) l) rows
          | None => rows end) <->
    In r rows /\ (forall l, location = Some l -> l <> 0%Z -> storage_location_id r = l)).
  { intros rows. destruct location as [l|].
    - destruct (Z.eqb_spec l 0) as [->|Hl].
      + split; [intros H; split; [exact H|]; intros l' E; injection E as <-; tauto|tauto].
      + rewrite filter_In, Z.eqb_eq. split.
        * intros [H1 H2]. split; [exact H1|]. intros l' E _. injection E as <-. exact H2.
        * intros [H1 H2]. split; [exact H1|]. apply H2; auto.
    - split; [intros H; split; [exact H|]; discriminate|tauto]. }
  rewrite Hloc.
  destruct (String.eqb_spec q "") as [Hq|Hq].
  - destruct show_deleted.
    + split; [intros [H1 H2]; auto|intros (H1 & _ & _ & H2); auto].
    + rewrite filter_In, negb_true_iff. split.
      * intros [[H1 H2] H3]. auto.
      * intros (H1 & [H2|H2] & _ & H3); [discriminate|auto].
  - rewrite filter_In. destruct show_deleted.
    + split.
      * intros [[H1 H2] H3]. repeat split; auto.
      * intros (H1 & _ & [H2|H2] & H3); [contradiction|auto].
    + rewrite filter_In, negb_true_iff. split.
      * intros [[[H1 H2] H3] H4]. repeat split; auto.
      * intros (H1 & [H2|H2] & [H3|H3] & H4); try discriminate; try contradiction; auto.
Qed.

(** Every revision of a dashboard grouping comes from the listing. *)
Lemma view_revisions_listing (s : DB) (q : string) (location : option Z) (show_deleted : bool)
    (today : Z) (r : ItemRevision) :
  In r (view_revisions (item_list s q location show_deleted today)) ->
  In r (dashboard_revisions s q location show_deleted).
Proof.
  unfold view_revisions, item_list. simpl.
  set (revisions := dashboard_revisions s q location show_deleted).
  intros H. apply in_app_or in H as [H|H]; [|apply in_app_or in H as [H|H]].
  - apply in_flat_map in H as ([loc rs] & Hsec & Hr). simpl in Hr.
    apply in_flat_map in Hsec as (loc' & _ & Hsec).
    destruct (filter _ revisions) as [|x xs] eqn:Hf; [destruct Hsec|].
    destruct Hsec as [E|[]]. injection E as _ <-. rewrite <- Hf in Hr.
    apply filter_In in Hr. tauto.
  - apply in_flat_map in H as ([t rs] & Hsec & Hr). simpl in Hr.
    apply in_flat_map in Hsec as (t' & _ & Hsec).
    match type of Hsec with
    | In _ (match sort_by ?le ?l with [] => _ | _ :: _ => _ end) =>
        destruct (sort_by le l) as [|x xs] eqn:Hf; [destruct Hsec|];
        destruct Hsec as [E|[]]; injection E as _ <-; rewrite <- Hf, In_sort_by in Hr
    end.
    apply in_flat_map in Hr as (it & _ & Hr).
    destruct (rev_by_item revisions (fi_id it)) as [y|] eqn:Hb; [|destruct Hr].
    destruct Hr as [<-|[]]. unfold rev_by_item in Hb. apply find_some in Hb as [Hb _].
    apply in_rev. exact Hb.
  - apply filter_In in H. tauto.
Qed.

(** C4: For every database and every filter setting (text query, location
    id, show_deleted) the dashboard listing and every one of its groupings
    (by location, by default tag, expiring soon) contain only revisions that
    carry the largest revision_num of their item. *)
Theorem dashboard_only_latest (s : DB) (q : string) (location : option Z)
    (show_deleted : bool) (today : Z) :
  Forall (is_latest_of_item s) (dashboard_revisions s q location show_deleted) /\
  Forall (is_latest_of_item s) (view_revisions (item_list s q location show_deleted today)).
Proof.
  assert (H : forall r, In r (dashboard_revisions s q location show_deleted) ->
                        is_latest_of_item s r).
  { intros r Hr. apply In_dashboard_revisions in Hr as [Hr _]. exact (latest_rows_max s r Hr). }
  split; apply Forall_forall; intros r Hr; apply H; [exact Hr|].
  exact (view_revisions_listing s q location show_deleted today r Hr).
Qed.

(* ------------------------------------------------------------------ *)
(** ** C2: dashboard ordering *)

Lemma sqlite_exp_le_total (a b : ItemRevision) :
  sqlite_exp_le a b = false -> sqlite_exp_le b a = true.
Proof.
  unfold sqlite_exp_le. destruct (expiration_date a), (expiration_date b); try discriminate; auto.
  rewrite Z.leb_gt, Z.leb_le. lia.
Qed.

Lemma tag_key_le_total (a b : ItemRevision) : tag_key_le a b = false -> tag_key_le b a = true.
Proof. unfold tag_key_le. rewrite Z.leb_gt, Z.leb_le. lia. Qed.

Lemma exp_nulls_last_le_trans (a b c : ItemRevision) :
  exp_nulls_last_le a b = true -> exp_nulls_last_le b c = true -> exp_nulls_last_le a c = true.
Proof.
  unfold exp_nulls_last_le.
  destruct (expiration_date a), (expiration_date b), (expiration_date c); try discriminate; auto.
  rewrite !Z.leb_le. lia.
Qed.

Lemma dashboard_has_expiration (s : DB) (q : string) (location : option Z) (sd : bool) :
  Inv s -> Forall has_expiration (dashboard_revisions s q location sd).
Proof.
  intros HI. apply Forall_forall. intros r Hr.
  apply In_dashboard_revisions in Hr as [Hr _]. apply latest_rows_max in Hr as [Hr _].
  exact (inv_exp s HI r Hr).
Qed.

Lemma sqlite_to_nulls_last (l : list ItemRevision) :
  Forall has_expiration l -> sorted_by sqlite_exp_le l = true ->
  sorted_by exp_nulls_last_le l = true.
Proof.
  apply sorted_by_transfer. unfold has_expiration, sqlite_exp_le, exp_nulls_last_le.
  intros x y Hx Hy. destruct (expiration_date x), (expiration_date y); congruence.
Qed.

Lemma tag_key_to_nulls_last (l : list ItemRevision) :
  Forall has_expiration l -> sorted_by tag_key_le l = true ->
  sorted_by exp_nulls_last_le l = true.
Proof.
  apply sorted_by_transfer. unfold has_expiration, tag_key_le, tag_sort_key, exp_nulls_last_le.
  intros x y Hx Hy. destruct (expiration_date x), (expiration_date y); congruence.
Qed.

(** C2: In every reachable database, for every filter setting, the
    dashboard listing is sorted by expiration date ascending with NULL
    dates last (no stored revision has a NULL date, so SQLite's NULLS FIRST
    default never shows); so is every location section, every default-tag
    section (re-sorted with [date.max] for NULL) and the expiring-soon
    bucket.  The listing is a function of the stored rows: unchanged data
    gives the same order. *)
Theorem dashboard_sorted_by_expiration (s : DB) (q : string) (location : option Z)
    (show_deleted : bool) (today : Z) :
  reachable s ->
  let v := item_list s q location show_deleted today in
  sorted_by exp_nulls_last_le (dashboard_revisions s q location show_deleted) = true /\
  Forall has_expiration (dashboard_revisions s q location show_deleted) /\
  Forall (fun sec => sorted_by exp_nulls_last_le (snd sec) = true) (sections v) /\
  Forall (fun sec => sorted_by exp_nulls_last_le (snd sec) = true) (tag_sections v) /\
  sorted_by exp_nulls_last_le (expiring_soon v) = true.
Proof.
  intros Hr v. pose proof (reachable_Inv s Hr) as HI.
  pose proof (dashboard_has_expiration s q location show_deleted HI) as Hexp.
  assert (Hsorted : sorted_by exp_nulls_last_le (dashboard_revisions s q location show_deleted) = true).
  { apply sqlite_to_nulls_last; [exact Hexp|]. unfold dashboard_revisions.
    apply sorted_sort_by. exact sqlite_exp_le_total. }
  split; [exact Hsorted|]. split; [exact Hexp|].
  unfold v, item_list. simpl.
  set (revisions := dashboard_revisions s q location show_deleted) in *.
  split; [|split].
  - apply Forall_forall. intros [loc rs] Hsec. simpl.
    apply in_flat_map in Hsec as (loc' & _ & Hsec).
    destruct (filter _ revisions) as [|x xs] eqn:Hf; [destruct Hsec|].
    destruct Hsec as [E|[]]. injection E as _ <-. rewrite <- Hf.
    apply sorted_by_filter; [exact exp_nulls_last_le_trans|exact Hsorted].
  - apply Forall_forall. intros [t rs] Hsec. simpl.
    apply in_flat_map in Hsec as (t' & _ & Hsec).
    match type of Hsec with
    | In _ (match sort_by ?le ?l with [] => _ | _ :: _ => _ end) =>
        destruct (sort_by le l) as [|x xs] eqn:Hf; [destruct Hsec|];
        destruct Hsec as [E|[]]; injection E as _ <-; rewrite <- Hf;
        apply tag_key_to_nulls_last;
        [ apply Forall_forall; intros r Hr2; rewrite In_sort_by in Hr2
        | apply sorted_sort_by; exact tag_key_le_total ]
    end.
    apply in_flat_map in Hr2 as (it & _ & Hr2).
    destruct (rev_by_item revisions (fi_id it)) as [y|] eqn:Hb; [|destruct Hr2].
    destruct Hr2 as [<-|[]]. unfold rev_by_item in Hb. apply find_some in Hb as [Hb _].
    apply in_rev in Hb. rewrite Forall_forall in Hexp. exact (Hexp y Hb).
  - apply sorted_by_filter; [exact exp_nulls_last_le_trans|exact Hsorted].
Qed.

Lemma dashboard_sorted_by_expiration_witness :
  reachable demo_db /\
  (let v := item_list demo_db "" None true 738005%Z in
   sorted_by exp_nulls_last_le (dashboard_revisions demo_db "" None true) = true /\
   Forall has_expiration (dashboard_revisions demo_db "" None true) /\
   Forall (fun sec => sorted_by exp_nulls_last_le (snd sec) = true) (sections v) /\
   Forall (fun sec => sorted_by exp_nulls_last_le (snd sec) = true) (tag_sections v) /\
   sorted_by exp_nulls_last_le (expiring_soon v) = true).
Proof.
  split; [exact demo_db_reachable|].
  apply (dashboard_sorted_by_expiration demo_db "" None true 738005%Z demo_db_reachable).
Defined.

(* ------------------------------------------------------------------ *)
(** ** C7: the expiring-soon bucket *)

(** C7 (counterexample): the bucket is computed from the filtered listing,
    so a text query hides a latest, active revision that expires within the
    window: with the item "Soup" expiring two days from today and the query
    "eggs", the bucket is empty. *)
Lemma expiring_soon_follows_query :
  In demo_rev1 (latest_rows demo_db) /\ is_deleted demo_rev1 = false /\
  expiration_date demo_rev1 = Some 738007%Z /\
  (738005 <= 738007 <= 738005 + 3)%Z /\
  expiring_soon (item_list demo_db "eggs" None false 738005%Z) = [].
Proof. vm_compute. split; [left; reflexivity|]. repeat split; discriminate. Qed.

(** C7 (amended): for every state and every filter setting, a revision is
    in the expiring-soon bucket iff it is the latest revision of its item,
    is not deleted, has an expiration date [d] with
    [today <= d <= today + 3], and passes the listing's text and location
    filters; [show_deleted] has no effect on the bucket. *)
Theorem expiring_soon_exact (s : DB) (q : string) (location : option Z)
    (show_deleted : bool) (today : Z) (r : ItemRevision) :
  In r (expiring_soon (item_list s q location show_deleted today)) <->
  In r (latest_rows s) /\ is_deleted r = false /\
  (exists d, expiration_date r = Some d /\ (today <= d <= today + 3)%Z) /\
  (q = ""%string \/ ilike (name r) ("%" ++ q ++ "%") = true) /\
  (forall l, location = Some l -> l <> 0%Z -> storage_location_id r = l).
Proof.
  unfold item_list. cbn [expiring_soon]. rewrite filter_In, In_dashboard_revisions.
  destruct (expiration_date r) as [d|] eqn:He.
  - destruct (is_deleted r); cbn [negb andb].
    + split; [intros [_ H]; discriminate|intros (_ & H & _); discriminate].
    + rewrite andb_true_iff, !Z.leb_le. split.
      * intros ((Hl & _ & Hq & Hloc) & Ht). repeat split; auto. exists d. auto.
      * intros (Hl & _ & (d' & Hd & Ht) & Hq & Hloc). injection Hd as <-.
        repeat split; auto; lia.
  - split; [intros (_ & H); discriminate|intros (_ & _ & (d & Hd & _) & _); discriminate].
Qed.

(* ------------------------------------------------------------------ *)
(** ** C1: [create_item] and an unknown storage location *)

(** C1 (counterexample): on a database with no storage location at all,
    creating an item at location 42 is not refused with NotFound: it
    redirects to the new item and stores revision 1 pointing at the
    missing location. *)
Lemma create_item_dangling_location :
  storage_locations empty_db = [] /\
  fst (create_item dangling_form "tok" empty_db) = Redirect "/i/tok" /\
  map (fun r => (revision_num r, storage_location_id r))
      (item_revisions (snd (create_item dangling_form "tok" empty_db))) = [(1, 42%Z)] /\
  food_items (snd (create_item dangling_form "tok" empty_db)) = [mkItem 1 "tok"].
Proof. vm_compute. repeat split. Qed.

(** C1 (amended): [create_item] does not look the storage location up.
    For every form that passes validation and a fresh public id, it
    redirects to the new item (never NotFound), appends one item and one
    revision with [revision_num = 1] carrying the submitted
    [storage_location_id] unchanged, whether or not a location with that
    id exists, and leaves the locations table alone (foreign keys are not
    enforced, SQLite's default).  The one exception does not involve the
    location either: with no expiration date and [date_prepared + 7 days]
    past [date.max], the handler raises (HTTP 500) and stores nothing. *)
Theorem create_item_no_location_check (f : ItemForm) (pid : string) (s : DB)
    (Hok : attr_errors f ++ fst (photo_step (f_photo f)) = [])
    (Hfresh : existsb (fun it => String.eqb (public_id it) pid) (food_items s) = false) :
  (exp_overflow f = true -> create_item f pid s = (ServerError, s)) /\
  (exp_overflow f = false ->
  fst (create_item f pid s) = Redirect ("/i/" ++ pid) /\
  exists iid r,
    food_items (snd (create_item f pid s)) = food_items s ++ [mkItem iid pid] /\
    item_revisions (snd (create_item f pid s)) = item_revisions s ++ [r] /\
    item_id r = iid /\ revision_num r = 1 /\
    storage_location_id r = f_storage_location_id f /\
    storage_locations (snd (create_item f pid s)) = storage_locations s).
Proof.
  unfold create_item. split; [intros Ho; rewrite Ho; reflexivity|]. intros Ho. rewrite Ho.
  destruct (photo_step (f_photo f)) as [pe pf] eqn:Hp.
  simpl in Hok. rewrite Hok, Hfresh.
  destruct (f_tag_ids f); simpl; split; try reflexivity;
    eexists _, _; repeat split; reflexivity.
Qed.

Lemma create_item_no_location_check_witness :
  attr_errors dangling_form ++ fst (photo_step (f_photo dangling_form)) = [] /\
  existsb (fun it => String.eqb (public_id it) "tok") (food_items empty_db) = false /\
  ((exp_overflow dangling_form = true ->
    create_item dangling_form "tok" empty_db = (ServerError, empty_db)) /\
   (exp_overflow dangling_form = false ->
   fst (create_item dangling_form "tok" empty_db) = Redirect ("/i/" ++ "tok") /\
   exists iid r,
     food_items (snd (create_item dangling_form "tok" empty_db)) =
       food_items empty_db ++ [mkItem iid "tok"] /\
     item_revisions (snd (create_item dangling_form "tok" empty_db)) =
       item_revisions empty_db ++ [r] /\
     item_id r = iid /\ revision_num r = 1 /\
     storage_location_id r = f_storage_location_id dangling_form /\
     storage_locations (snd (create_item dangling_form "tok" empty_db)) =
       storage_locations empty_db)).
Proof.
  split; [vm_compute; reflexivity|]. split; [vm_compute; reflexivity|].
  apply create_item_no_location_check; vm_compute; reflexivity.
Defined.

(* ------------------------------------------------------------------ *)
(** ** C3: rejected form submissions *)

Lemma create_item_errors (f : ItemForm) (pid : string) (s : DB) :
  form_errors f <> [] ->
  create_item f pid s =
    (if exp_overflow f then ServerError
     else CreatePage (form_errors f) (echo_of f) (f_tag_ids f), s).
Proof.
  unfold form_errors, create_item. intros Herr. destruct (exp_overflow f); [reflexivity|].
  destruct (photo_step (f_photo f)) as [pe pf].
  simpl in Herr |- *. destruct (attr_errors f ++ pe); [contradiction|reflexivity].
Qed.

Lemma save_edit_errors (f : ItemForm) (pid : string) (s : DB) :
  form_errors f <> [] ->
  snd (save_edit pid f s) = s /\
  (get_item s pid <> None ->
   if exp_overflow f then fst (save_edit pid f s) = ServerError
   else page_errors (fst (save_edit pid f s)) = form_errors f).
Proof.
  unfold form_errors, save_edit. intros Herr.
  destruct (get_item s pid) as [it|]; [|split; [reflexivity|intros H; contradiction]].
  destruct (exp_overflow f); [split; reflexivity|]. cbv beta iota.
  destruct (f_photo f) as [p|] eqn:Hph.
  - destruct (photo_step (Some p)) as [pe pf]. simpl in Herr |- *.
    destruct (attr_errors f ++ pe); [contradiction|]. split; [reflexivity|intros _; repeat split].
  - simpl in Herr. cbn [photo_step fst].
    match goal with
    | |- context [let '(_, _) := ?m in _] => destruct m as [pe pf] eqn:Hm
    end.
    assert (pe = []) as ->.
    { destruct (f_keep_photo f), (latest_revision (item_revs s (fi_id it)));
        injection Hm as <- _; reflexivity. }
    destruct (attr_errors f ++ []); [contradiction|]. split; [reflexivity|intros _; repeat split].
Qed.

Lemma reuse_label_errors (f : ItemForm) (pid : string) (s : DB) :
  form_errors f <> [] ->
  snd (reuse_label pid f s) = s /\
  (get_item s pid <> None ->
   if exp_overflow f then fst (reuse_label pid f s) = ServerError
   else page_errors (fst (reuse_label pid f s)) = form_errors f /\
        page_form (fst (reuse_label pid f s)) = Some (echo_of f)).
Proof.
  unfold form_errors, reuse_label. intros Herr.
  destruct (get_item s pid) as [it|]; [|split; [reflexivity|intros H; contradiction]].
  destruct (exp_overflow f); [split; reflexivity|]. cbv beta iota.
  destruct (photo_step (f_photo f)) as [pe pf]. simpl in Herr |- *.
  destruct (attr_errors f ++ pe); [contradiction|]. split; [reflexivity|intros _; repeat split].
Qed.

(** C3 (counterexample): the links a user submitted are not re-presented.
    Two create submissions that differ only in their (valid) links get the
    same error page, and the edit page shows the stored latest revision
    instead of the submitted values. *)
Lemma rejected_form_loses_input :
  fst (create_item blank_name_form "tok2" demo_db) =
    fst (create_item blank_name_form_no_links "tok2" demo_db) /\
  f_link_urls blank_name_form <> f_link_urls blank_name_form_no_links /\
  fst (save_edit "tok" blank_name_form demo_db) =
    EditPage ["Name is required."%string] (Some demo_rev1) [1%Z] /\
  name demo_rev1 <> f_name blank_name_form.
Proof. vm_compute. repeat split; discriminate. Qed.

(** C3 (amended): when a create, edit or reuse submission fails
    validation, the handler persists nothing (the database is returned
    unchanged, so no revision is added and none is altered) and the page it
    renders carries the whole accumulated error list [form_errors f]: the
    blank-name error, the date-order error, one error per invalid URL and
    the photo rejection, never only the first.  The create and reuse pages
    re-present the submitted scalar fields [echo_of f] (name, dates,
    location, notes, amount, unit); the submitted links are not
    re-presented by any of the three.  The exception is a form with no
    expiration date whose [date_prepared + 7 days] passes [date.max]: the
    handler raises (HTTP 500) instead of rendering the page, still storing
    nothing. *)
Theorem rejected_form_batch (f : ItemForm) (pid new_pid : string) (s : DB)
    (Herr : form_errors f <> []) :
  snd (create_item f new_pid s) = s /\
  snd (save_edit pid f s) = s /\
  snd (reuse_label pid f s) = s /\
  (exp_overflow f = true ->
   fst (create_item f new_pid s) = ServerError /\
   (get_item s pid <> None ->
    fst (save_edit pid f s) = ServerError /\ fst (reuse_label pid f s) = ServerError)) /\
  (exp_overflow f = false ->
   create_item f new_pid s = (CreatePage (form_errors f) (echo_of f) (f_tag_ids f), s) /\
   (get_item s pid <> None ->
    page_errors (fst (save_edit pid f s)) = form_errors f /\
    page_errors (fst (reuse_label pid f s)) = form_errors f /\
    page_form (fst (reuse_label pid f s)) = Some (echo_of f))).
Proof.
  destruct (save_edit_errors f pid s Herr) as [He1 He2].
  destruct (reuse_label_errors f pid s Herr) as [Hr1 Hr2].
  pose proof (create_item_errors f new_pid s Herr) as Hc.
  split; [rewrite Hc; reflexivity|].
  split; [exact He1|]. split; [exact Hr1|].
  destruct (exp_overflow f).
  - split; [|intros H; discriminate]. intros _. split; [rewrite Hc; reflexivity|].
    intros Hit. split; [exact (He2 Hit)|exact (Hr2 Hit)].
  - split; [intros H; discriminate|]. intros _. split; [exact Hc|].
    intros Hit. split; [exact (He2 Hit)|exact (Hr2 Hit)].
Qed.

Lemma rejected_form_batch_witness :
  form_errors blank_name_form <> [] /\
  (snd (create_item blank_name_form "tok2" demo_db) = demo_db /\
   snd (save_edit "tok" blank_name_form demo_db) = demo_db /\
   snd (reuse_label "tok" blank_name_form demo_db) = demo_db /\
   (exp_overflow blank_name_form = true ->
    fst (create_item blank_name_form "tok2" demo_db) = ServerError /\
    (get_item demo_db "tok" <> None ->
     fst (save_edit "tok" blank_name_form demo_db) = ServerError /\
     fst (reuse_label "tok" blank_name_form demo_db) = ServerError)) /\
   (exp_overflow blank_name_form = false ->
    create_item blank_name_form "tok2" demo_db =
      (CreatePage (form_errors blank_name_form) (echo_of blank_name_form)
                  (f_tag_ids blank_name_form), demo_db) /\
    (get_item demo_db "tok" <> None ->
     page_errors (fst (save_edit "tok" blank_name_form demo_db)) = form_errors blank_name_form /\
     page_errors (fst (reuse_label "tok" blank_name_form demo_db)) = form_errors blank_name_form /\
     page_form (fst (reuse_label "tok" blank_name_form demo_db)) =
       Some (echo_of blank_name_form)))).
Proof.
  split; [vm_compute; discriminate|].
  apply rejected_form_batch. vm_compute. discriminate.
Defined.

(* ------------------------------------------------------------------ *)
(** ** C8: link validation *)

(** C8 (counterexample): [URL_RE] accepts a URL with whitespace inside it
    (the [.] after the first host character matches a space), and rejects
    the URL [http://a] although its authority is non-empty. *)
Lemma url_re_accepts_space :
  check_links [("http://a b", "")]%string = ([], [("http://a b", None)])%string /\
  check_links [("http://a", "")]%string = (["Invalid URL: http://a"], [])%string.
Proof. vm_compute. split; reflexivity. Qed.

Lemma check_links_errors (ps : list (string * string)) :
  fst (check_links ps) =
    map (fun p => ("Invalid URL: " ++ strip (fst p))%string) (filter link_invalid ps).
Proof.
  induction ps as [|[u l] ps IH]; [reflexivity|].
  cbn [check_links]. destruct (check_links ps) as [es cl]. simpl in IH.
  unfold link_invalid at 1, link_skipped at 1. cbn [fst filter].
  destruct (String.eqb (strip u) ""); [exact IH|].
  destruct (URL_RE_match (strip u)); simpl; [exact IH|f_equal; exact IH].
Qed.

Lemma check_links_clean (ps : list (string * string)) :
  snd (check_links ps) =
    map (fun p => (strip (fst p), strip_or_none (snd p))) (filter link_valid ps).
Proof.
  induction ps as [|[u l] ps IH]; [reflexivity|].
  cbn [check_links]. destruct (check_links ps) as [es cl]. simpl in IH.
  unfold link_valid at 1, link_skipped at 1. cbn [fst filter].
  destruct (String.eqb (strip u) ""); [exact IH|].
  destruct (URL_RE_match (strip u)); simpl; [f_equal; exact IH|exact IH].
Qed.

Lemma link_classes (p : string * string) :
  xorb (link_skipped p) (xorb (link_invalid p) (link_valid p)) = true /\
  negb (link_skipped p && link_invalid p) = true /\
  negb (link_skipped p && link_valid p) = true /\
  negb (link_invalid p && link_valid p) = true.
Proof.
  unfold link_invalid, link_valid.
  destruct (link_skipped p), (URL_RE_match (strip (fst p))); repeat split.
Qed.

(** C8 (amended): for every list of (url, label) pairs, the link loop trims
    each url; a pair whose trimmed url is empty is skipped without error;
    every other pair is either rejected, giving its own error
    ["Invalid URL: " ++ url] (all of them, in input order), or accepted as
    (trimmed url, trimmed label, with a blank label stored as absent),
    according to [URL_RE_match], i.e. [^https?://[^\s/$.?#].[^\s]*$] with
    IGNORECASE: a first host character that is neither whitespace nor one
    of [/$.?#], then any one character but a newline, then non-whitespace
    characters only.  The example of the specification behaves as stated. *)
Theorem check_links_spec (ps : list (string * string)) :
  fst (check_links ps) =
    map (fun p => ("Invalid URL: " ++ strip (fst p))%string) (filter link_invalid ps) /\
  snd (check_links ps) =
    map (fun p => (strip (fst p), strip_or_none (snd p))) (filter link_valid ps) /\
  Forall (fun p => xorb (link_skipped p) (xorb (link_invalid p) (link_valid p)) = true) ps /\
  check_links [("not-a-url", "x"); (" https://a.test/b ", "Y")]%string =
    (["Invalid URL: not-a-url"], [("https://a.test/b", Some "Y")])%string.
Proof.
  split; [exact (check_links_errors ps)|]. split; [exact (check_links_clean ps)|].
  split; [apply Forall_forall; intros p _; apply link_classes|].
  vm_compute. reflexivity.
Qed.

(* ================================================================== *)
(** * Further properties of the code *)

(** ** Every handler only appends rows *)

Lemma grows_refl (s : DB) : grows s s.
Proof. repeat split; exists []; rewrite app_nil_r; reflexivity. Qed.

Lemma grows_trans (s1 s2 s3 : DB) : grows s1 s2 -> grows s2 s3 -> grows s1 s3.
Proof.
  intros ((a1 & H1) & (b1 & H2) & (c1 & H3) & (d1 & H4) & (e1 & H5))
         ((a2 & G1) & (b2 & G2) & (c2 & G3) & (d2 & G4) & (e2 & G5)).
  repeat split; [exists (a1 ++ a2)|exists (b1 ++ b2)|exists (c1 ++ c2)|exists (d1 ++ d2)
                |exists (e1 ++ e2)]; rewrite app_assoc; congruence.
Qed.

Ltac grows_same := repeat split; exists []; rewrite app_nil_r; reflexivity.

Lemma grows_add_item (s s1 : DB) (it : FoodItem) : grows s s1 -> grows s (add_item it s1).
Proof.
  intros H. apply (grows_trans _ s1); [exact H|].
  repeat split; (exists []; rewrite app_nil_r; reflexivity) || (exists [it]; reflexivity).
Qed.

Lemma grows_add_revision (s s1 : DB) (r : ItemRevision) :
  grows s s1 -> grows s (add_revision r s1).
Proof.
  intros H. apply (grows_trans _ s1); [exact H|].
  repeat split; (exists []; rewrite app_nil_r; reflexivity) || (exists [r]; reflexivity).
Qed.

Lemma grows_add_links_db (s s1 : DB) (rid : Z) (ps : list (string * option string)) :
  grows s s1 -> grows s (add_links_db rid ps s1).
Proof.
  intros H. apply (grows_trans _ s1); [exact H|].
  destruct (add_links_spec (revision_links s1) rid ps) as (nw & Hnw & _ & _).
  repeat split; (exists []; rewrite app_nil_r; reflexivity) || (exists nw; exact Hnw).
Qed.

Lemma grows_set_item_tags (s s1 : DB) (iid : Z) (ts : list Tag) :
  grows s s1 -> grows s (set_item_tags iid ts s1).
Proof. intros H. apply (grows_trans _ s1); [exact H|grows_same]. Qed.

Lemma grows_add_location (s s1 : DB) (n : string) : grows s s1 -> grows s (add_location n s1).
Proof.
  intros H. apply (grows_trans _ s1); [exact H|].
  repeat split; (exists []; rewrite app_nil_r; reflexivity) || (eexists; reflexivity).
Qed.

Lemma grows_add_tag (s s1 : DB) (n : string) (b : bool) : grows s s1 -> grows s (add_tag n b s1).
Proof.
  intros H. apply (grows_trans _ s1); [exact H|].
  repeat split; (exists []; rewrite app_nil_r; reflexivity) || (eexists; reflexivity).
Qed.

Lemma grows_fold {A} (g : DB -> A -> DB) (l : list A) (s : DB) :
  (forall acc x, grows acc (g acc x)) -> grows s (fold_left g l s).
Proof.
  intros Hg. revert s. induction l as [|x l IH]; intros s; simpl; [apply grows_refl|].
  exact (grows_trans _ _ _ (Hg s x) (IH (g s x))).
Qed.

Lemma grows_on_startup (s : DB) : grows s (on_startup s).
Proof.
  unfold on_startup, seed_tags. apply (grows_trans _ (seed_locations s)).
  - unfold seed_locations. apply grows_fold. intros acc x.
    destruct existsb; [apply grows_refl|apply grows_add_location, grows_refl].
  - apply grows_fold. intros acc x.
    destruct existsb; [apply grows_refl|apply grows_add_tag, grows_refl].
Qed.

Ltac grows_tac :=
  repeat (apply grows_add_links_db || apply grows_add_revision || apply grows_add_item ||
          apply grows_set_item_tags || apply grows_add_location);
  apply grows_refl.

Lemma step_grows (s s' : DB) : step s s' -> grows s s'.
Proof.
  intros Hst. destruct Hst as [s|n s|f pid s|pid f s|pid a u today s|pid today s|pid s|pid f s].
  - apply grows_on_startup.
  - unfold create_location. destruct String.eqb; [apply grows_refl|].
    destruct existsb; [apply grows_refl|]. simpl snd. grows_tac.
  - unfold create_item. destruct (photo_step (f_photo f)) as [pe pf].
    destruct (exp_overflow f); [apply grows_refl|].
    destruct (attr_errors f ++ pe); [|apply grows_refl].
    destruct existsb; [apply grows_refl|]. simpl snd. destruct (f_tag_ids f); grows_tac.
  - unfold save_edit. destruct (get_item s pid) as [it|]; [|apply grows_refl].
    destruct (exp_overflow f); [apply grows_refl|].
    match goal with |- grows _ (snd (let '(_, _) := ?m in _)) => destruct m as [pe pf] end.
    destruct (attr_errors f ++ pe); [|apply grows_refl]. simpl snd.
    destruct (f_tag_ids f); grows_tac.
  - unfold update_amount. destruct (get_item s pid) as [it|]; [|apply grows_refl].
    destruct (latest_revision _); simpl snd; grows_tac.
  - unfold soft_delete. destruct (get_item s pid) as [it|]; [|apply grows_refl].
    destruct (latest_revision _); simpl snd; grows_tac.
  - unfold restore_item. destruct (get_item s pid) as [it|]; [|apply grows_refl].
    destruct (restore_source _); simpl snd; grows_tac.
  - unfold reuse_label. destruct (get_item s pid) as [it|]; [|apply grows_refl].
    destruct (exp_overflow f); [apply grows_refl|].
    destruct (photo_step (f_photo f)) as [pe pf].
    destruct (attr_errors f ++ pe); [|apply grows_refl]. simpl snd. grows_tac.
Qed.

(** Every step, that is every mutating handler and the startup seeding,
    keeps every existing row of items, revisions, links, tags and storage
    locations and only appends new ones: no such row is ever deleted or
    overwritten, so an item's history is never rewritten. Only the
    [item_tags] association rows can be replaced, by an edit. *)
Theorem step_append_only (s s' : DB) : step s s' -> grows s s'.
Proof. exact (step_grows s s'). Qed.

Lemma step_append_only_witness :
  step demo_db (snd (soft_delete "tok" 738001%Z demo_db)) /\
  grows demo_db (snd (soft_delete "tok" 738001%Z demo_db)).
Proof.
  split; [apply step_delete|].
  apply step_append_only. apply step_delete.
Defined.

(** ** Invariants of every stored revision *)

Lemma restore_source_some (s : DB) (it : FoodItem) :
  Inv s -> In it (food_items s) ->
  exists src, restore_source (item_revs s (fi_id it)) = Some src /\ In src (item_revisions s).
Proof.
  intros HI Hit. destruct (Inv_latest s it HI Hit) as (p & Hl & Hp & _ & _).
  unfold restore_source. destruct (latest_active_revision _) as [a|] eqn:La.
  - exists a. split; [reflexivity|].
    apply latest_active_In in La as [La _]. apply item_revs_In in La. tauto.
  - exists p. rewrite Hl. auto.
Qed.

Section RevisionInvariant.
Variable P : ItemRevision -> Prop.
(** [P] holds of every revision built from a form that passed validation... *)
Hypothesis P_form : forall rid iid num f pf,
  attr_errors f = [] -> P (form_revision rid iid num f pf).
(** ... and of every revision that copies name and dates of one where it holds. *)
Hypothesis P_copy : forall p r, P p -> name r = name p -> date_prepared r = date_prepared p ->
  expiration_date r = expiration_date p -> P r.

Lemma Forall_snoc {A} (Q : A -> Prop) (l : list A) (x : A) :
  Forall Q l -> Q x -> Forall Q (l ++ [x]).
Proof. intros H1 H2. apply Forall_app. auto. Qed.

Lemma step_revisions_P (s s' : DB) :
  Inv s -> Forall P (item_revisions s) -> step s s' -> Forall P (item_revisions s').
Proof.
  intros HI HP Hst. pose proof HP as HP'. rewrite Forall_forall in HP'.
  destruct Hst as [s|n s|f pid s|pid f s|pid a u today s|pid today s|pid s|pid f s].
  - destruct (same_rows_startup s) as (_ & -> & _). exact HP.
  - unfold create_location. destruct String.eqb; [exact HP|].
    destruct existsb; exact HP.
  - unfold create_item. destruct (photo_step (f_photo f)) as [pe pf].
    destruct (exp_overflow f); [exact HP|].
    destruct (attr_errors f ++ pe) eqn:He; [|exact HP].
    apply app_eq_nil in He as [He _].
    destruct existsb; [exact HP|]. simpl snd.
    destruct (f_tag_ids f); apply Forall_snoc; auto.
  - unfold save_edit. destruct (get_item s pid) as [it|]; [|exact HP].
    destruct (exp_overflow f); [exact HP|].
    match goal with |- Forall P (item_revisions (snd (let '(_, _) := ?m in _))) =>
      destruct m as [pe pf] end.
    destruct (attr_errors f ++ pe) eqn:He; [|exact HP].
    apply app_eq_nil in He as [He _]. simpl snd.
    destruct (f_tag_ids f); apply Forall_snoc; auto.
  - unfold update_amount. destruct (get_item s pid) as [it|] eqn:G; [|exact HP].
    destruct (Inv_latest s it HI (get_item_In _ _ _ G)) as (p & Hl & Hp & _ & _).
    rewrite Hl. simpl snd. apply Forall_snoc; [exact HP|].
    apply (P_copy p); auto.
  - unfold soft_delete. destruct (get_item s pid) as [it|] eqn:G; [|exact HP].
    destruct (Inv_latest s it HI (get_item_In _ _ _ G)) as (p & Hl & Hp & _ & _).
    rewrite Hl. simpl snd. apply Forall_snoc; [exact HP|].
    apply (P_copy p); auto.
  - unfold restore_item. destruct (get_item s pid) as [it|] eqn:G; [|exact HP].
    destruct (restore_source_some s it HI (get_item_In _ _ _ G)) as (src & Hs & Hsin).
    rewrite Hs. simpl snd. apply Forall_snoc; [exact HP|].
    apply (P_copy src); auto.
  - unfold reuse_label. destruct (get_item s pid) as [it|]; [|exact HP].
    destruct (exp_overflow f); [exact HP|].
    destruct (photo_step (f_photo f)) as [pe pf].
    destruct (attr_errors f ++ pe) eqn:He; [|exact HP].
    apply app_eq_nil in He as [He _]. simpl snd. apply Forall_snoc; auto.
Qed.

Lemma reachable_revisions_P (s : DB) : reachable s -> Forall P (item_revisions s).
Proof.
  induction 1 as [|s s' Hr IH Hst]; [constructor|].
  exact (step_revisions_P s s' (reachable_Inv s Hr) IH Hst).
Qed.

End RevisionInvariant.

Lemma attr_errors_nil (f : ItemForm) :
  attr_errors f = [] ->
  is_blank (f_name f) = false /\ (exp_of f <? f_date_prepared f)%Z = false /\
  fst (check_links (form_links f)) = [].
Proof.
  unfold attr_errors. destruct (is_blank (f_name f)); [discriminate|].
  destruct (exp_of f <? f_date_prepared f)%Z; [discriminate|]. simpl. auto.
Qed.

(** In every reachable state every stored revision has an expiration date,
    and it is never before the revision's preparation date: the form
    handlers reject such input and the other handlers copy both dates from
    a stored revision. *)
Theorem reachable_expiration_after_prepared (s : DB) :
  reachable s ->
  Forall (fun r => exists d, expiration_date r = Some d /\ (date_prepared r <= d)%Z)
         (item_revisions s).
Proof.
  apply reachable_revisions_P.
  - intros rid iid num f pf Hok. apply attr_errors_nil in Hok as (_ & Hd & _).
    exists (exp_of f). simpl. split; [reflexivity|]. apply Z.ltb_ge. exact Hd.
  - intros p r (d & Hd & Hle) Hn Hdp He. exists d. rewrite He, Hdp. auto.
Qed.

Lemma reachable_expiration_after_prepared_witness :
  reachable demo_db /\
  Forall (fun r => exists d, expiration_date r = Some d /\ (date_prepared r <= d)%Z)
         (item_revisions demo_db).
Proof.
  split; [exact demo_db_reachable|].
  apply reachable_expiration_after_prepared. exact demo_db_reachable.
Defined.

(** ** [str.strip] is idempotent *)

Definition head_not_space (l : list ascii) : Prop :=
  match l with [] => True | a :: _ => is_space a = false end.

Lemma drop_spaces_head (l : list ascii) : head_not_space (drop_spaces l).
Proof.
  induction l as [|c l IH]; simpl; [exact I|].
  destruct (is_space c) eqn:E; [exact IH|exact E].
Qed.

Lemma drop_spaces_id (l : list ascii) : head_not_space l -> drop_spaces l = l.
Proof. destruct l as [|c l]; simpl; [reflexivity|]. intros ->. reflexivity. Qed.

Lemma drop_spaces_suffix (l : list ascii) : exists p, l = p ++ drop_spaces l.
Proof.
  induction l as [|c l IH]; simpl; [exists []; reflexivity|].
  destruct (is_space c); [destruct IH as (p & Hp); exists (c :: p); simpl; congruence|].
  exists []. reflexivity.
Qed.

Lemma head_not_space_rev_suffix (p k : list ascii) :
  head_not_space (rev (p ++ k)) -> head_not_space (rev k).
Proof.
  rewrite rev_app_distr. destruct (rev k); simpl; auto.
Qed.

Lemma strip_idem (x : string) : strip (strip x) = strip x.
Proof.
  unfold strip. rewrite list_ascii_of_string_of_list_ascii.
  set (j := drop_spaces (list_ascii_of_string x)).
  set (k := drop_spaces (rev j)).
  assert (Hk : head_not_space (rev k)).
  { destruct (drop_spaces_suffix (rev j)) as (p & Hp).
    apply (head_not_space_rev_suffix p). fold k in Hp. rewrite <- Hp, rev_involutive.
    apply drop_spaces_head. }
  rewrite (drop_spaces_id (rev k) Hk), rev_involutive.
  unfold k at 1. rewrite (drop_spaces_id (drop_spaces (rev j)) (drop_spaces_head _)).
  reflexivity.
Qed.

(** In every reachable state every stored revision has a non-empty name
    with no surrounding whitespace: the form handlers store
    [name.strip()] of a name they checked to be non-blank, and the other
    handlers copy the name of a stored revision. *)
Theorem reachable_names_trimmed (s : DB) :
  reachable s ->
  Forall (fun r => name r <> ""%string /\ strip (name r) = name r) (item_revisions s).
Proof.
  apply reachable_revisions_P.
  - intros rid iid num f pf Hok. apply attr_errors_nil in Hok as (Hb & _ & _).
    simpl. unfold is_blank in Hb. split.
    + intros E. rewrite E in Hb. discriminate.
    + apply strip_idem.
  - intros p r Hp Hn _ _. rewrite Hn. exact Hp.
Qed.

Lemma reachable_names_trimmed_witness :
  reachable demo_db /\
  Forall (fun r => name r <> ""%string /\ strip (name r) = name r) (item_revisions demo_db).
Proof.
  split; [exact demo_db_reachable|].
  apply reachable_names_trimmed. exact demo_db_reachable.
Defined.

(** ** Public ids *)

Lemma step_items (s s' : DB) :
  step s s' ->
  food_items s' = food_items s \/
  exists iid pid, existsb (fun it => String.eqb (public_id it) pid) (food_items s) = false /\
                  food_items s' = food_items s ++ [mkItem iid pid].
Proof.
  intros Hst. destruct Hst as [s|n s|f pid s|pid f s|pid a u today s|pid today s|pid s|pid f s].
  - left. destruct (same_rows_startup s) as (-> & _). reflexivity.
  - left. unfold create_location. destruct String.eqb; [reflexivity|].
    destruct existsb; reflexivity.
  - unfold create_item. destruct (photo_step (f_photo f)) as [pe pf].
    destruct (exp_overflow f); [left; reflexivity|].
    destruct (attr_errors f ++ pe); [|left; reflexivity].
    destruct existsb eqn:Hx; [left; reflexivity|]. right. do 2 eexists. split; [exact Hx|].
    destruct (f_tag_ids f); reflexivity.
  - left. unfold save_edit. destruct (get_item s pid) as [it|]; [|reflexivity].
    destruct (exp_overflow f); [reflexivity|].
    match goal with |- food_items (snd (let '(_, _) := ?m in _)) = _ =>
      destruct m as [pe pf] end.
    destruct (attr_errors f ++ pe); [|reflexivity]. destruct (f_tag_ids f); reflexivity.
  - left. unfold update_amount. destruct (get_item s pid); [|reflexivity].
    destruct (latest_revision _); reflexivity.
  - left. unfold soft_delete. destruct (get_item s pid); [|reflexivity].
    destruct (latest_revision _); reflexivity.
  - left. unfold restore_item. destruct (get_item s pid); [|reflexivity].
    destruct (restore_source _); reflexivity.
  - left. unfold reuse_label. destruct (get_item s pid); [|reflexivity].
    destruct (exp_overflow f); [reflexivity|].
    destruct (photo_step (f_photo f)). destruct (attr_errors f ++ _); reflexivity.
Qed.

Lemma reachable_public_ids_NoDup (s : DB) : reachable s -> NoDup (map public_id (food_items s)).
Proof.
  induction 1 as [|s s' _ IH Hst]; [constructor|].
  destruct (step_items s s' Hst) as [-> | (iid & pid & Hx & ->)]; [exact IH|].
  rewrite map_app. simpl. apply NoDup_app; [exact IH|constructor; [intros []|constructor]|].
  intros x Hx1 [<-|[]]. apply in_map_iff in Hx1 as (it & Hp & Hit).
  assert (existsb (fun it => String.eqb (public_id it) pid) (food_items s) = true) as Ht.
  { apply existsb_exists. exists it. split; [exact Hit|]. apply String.eqb_eq. exact Hp. }
  congruence.
Qed.

Lemma find_unique_public_id (l : list FoodItem) (it : FoodItem) :
  NoDup (map public_id l) -> In it l ->
  find (fun y => String.eqb (public_id y) (public_id it)) l = Some it.
Proof.
  induction l as [|y l IH]; [intros _ []|]. simpl. intros Hnd Hin. inversion Hnd as [|a b Hy Hnd']. subst.
  destruct Hin as [<-|Hin].
  - rewrite String.eqb_refl. reflexivity.
  - destruct (String.eqb (public_id y) (public_id it)) eqn:E.
    + apply String.eqb_eq in E. exfalso. apply Hy. rewrite E. apply in_map. exact Hin.
    + apply IH; assumption.
Qed.

(** In every reachable state no two items share a public id, so the page
    URL of every stored item, [/i/<public_id>], resolves to that item, and
    its QR code encodes [item_url(public_id)] of that same item. *)
Theorem public_id_round_trip (s : DB) (base_url : string) :
  reachable s ->
  NoDup (map public_id (food_items s)) /\
  forall it, In it (food_items s) ->
    get_item s (public_id it) = Some it /\
    qr_image base_url (public_id it) s = Some (QrPng (item_url base_url (public_id it))).
Proof.
  intros Hr. pose proof (reachable_public_ids_NoDup s Hr) as Hnd. split; [exact Hnd|].
  intros it Hit. assert (G : get_item s (public_id it) = Some it).
  { unfold get_item. apply find_unique_public_id; assumption. }
  split; [exact G|]. unfold qr_image. rewrite G. reflexivity.
Qed.

Lemma public_id_round_trip_witness :
  reachable demo_db /\
  (NoDup (map public_id (food_items demo_db)) /\
   forall it, In it (food_items demo_db) ->
     get_item demo_db (public_id it) = Some it /\
     qr_image "http://localhost:8000" (public_id it) demo_db =
       Some (QrPng (item_url "http://localhost:8000" (public_id it)))).
Proof.
  split; [exact demo_db_reachable|].
  apply public_id_round_trip. exact demo_db_reachable.
Defined.

(** ** Startup seeding *)

Lemma existsb_eqb_In (n : string) (l : list string) : existsb (String.eqb n) l = true <-> In n l.
Proof.
  rewrite existsb_exists. split.
  - intros (x & Hx & E). apply String.eqb_eq in E. subst. exact Hx.
  - intros H. exists n. split; [exact H|apply String.eqb_refl].
Qed.

Lemma seed_locations_names (s : DB) (n : string) :
  In n (map loc_name (storage_locations s)) \/ In n DEFAULT_LOCATIONS ->
  In n (map loc_name (storage_locations (seed_locations s))).
Proof.
  unfold seed_locations. set (existing := map loc_name (storage_locations s)).
  assert (Hsub : forall l s0, (forall m, In m (map loc_name (storage_locations s0)) ->
      In m (map loc_name (storage_locations
        (fold_left (fun acc n => if existsb (String.eqb n) existing then acc
                                 else add_location n acc) l s0))))).
  { induction l as [|x l IH]; intros s0 m Hm; [exact Hm|]. simpl. apply IH.
    destruct existsb; [exact Hm|]. simpl. rewrite map_app, in_app_iff. left. exact Hm. }
  assert (Hnew : forall l s0, In n l -> In n existing \/
      In n (map loc_name (storage_locations
        (fold_left (fun acc n => if existsb (String.eqb n) existing then acc
                                 else add_location n acc) l s0)))).
  { induction l as [|x l IH]; intros s0 Hn; [destruct Hn|]. destruct Hn as [Hx|Hn]; [subst x|].
    - simpl. destruct (existsb (String.eqb n) existing) eqn:E.
      + left. apply existsb_eqb_In. exact E.
      + right. apply Hsub. simpl. rewrite map_app, in_app_iff. right. left. reflexivity.
    - simpl. apply IH. exact Hn. }
  intros [H|H]; [apply Hsub; exact H|].
  destruct (Hnew DEFAULT_LOCATIONS s H) as [H'|H']; [apply Hsub; exact H'|exact H'].
Qed.

Lemma seed_tags_names (s : DB) (n : string) :
  In n (map tag_name (tags s)) \/ In n (map fst DEFAULT_TAGS) ->
  In n (map tag_name (tags (seed_tags s))).
Proof.
  unfold seed_tags. set (existing := map tag_name (tags s)).
  assert (Hsub : forall l s0, (forall m, In m (map tag_name (tags s0)) ->
      In m (map tag_name (tags
        (fold_left (fun acc td => if existsb (String.eqb (fst td)) existing then acc
                                  else add_tag (fst td) (snd td) acc) l s0))))).
  { induction l as [|x l IH]; intros s0 m Hm; [exact Hm|]. simpl. apply IH.
    destruct existsb; [exact Hm|]. simpl. rewrite map_app, in_app_iff. left. exact Hm. }
  assert (Hnew : forall l s0, In n (map fst l) -> In n existing \/
      In n (map tag_name (tags
        (fold_left (fun acc td => if existsb (String.eqb (fst td)) existing then acc
                                  else add_tag (fst td) (snd td) acc) l s0)))).
  { induction l as [|x l IH]; intros s0 Hn; [destruct Hn|]. destruct Hn as [Hx|Hn].
    - simpl. destruct (existsb (String.eqb (fst x)) existing) eqn:E.
      + left. rewrite <- Hx. apply existsb_eqb_In. exact E.
      + right. apply Hsub. simpl. rewrite map_app, in_app_iff. right. left. exact Hx.
    - simpl. apply IH. exact Hn. }
  intros [H|H]; [apply Hsub; exact H|].
  destruct (Hnew DEFAULT_TAGS s H) as [H'|H']; [apply Hsub; exact H'|exact H'].
Qed.

Lemma seed_locations_done (s : DB) :
  (forall n, In n DEFAULT_LOCATIONS -> In n (map loc_name (storage_locations s))) ->
  seed_locations s = s.
Proof.
  intros H. unfold seed_locations, DEFAULT_LOCATIONS. cbn [fold_left].
  rewrite !(proj2 (existsb_eqb_In _ _)); try (apply H; simpl; tauto). reflexivity.
Qed.

Lemma seed_tags_done (s : DB) :
  (forall n, In n (map fst DEFAULT_TAGS) -> In n (map tag_name (tags s))) ->
  seed_tags s = s.
Proof.
  intros H. unfold seed_tags, DEFAULT_TAGS. cbn [fold_left fst snd].
  rewrite !(proj2 (existsb_eqb_In _ _)); try (apply H; simpl; tauto). reflexivity.
Qed.

Lemma seed_tags_locations (s : DB) : storage_locations (seed_tags s) = storage_locations s.
Proof.
  unfold seed_tags. generalize (map tag_name (tags s)) as ex. intros ex.
  generalize DEFAULT_TAGS as l. intros l. revert s.
  induction l as [|x l IH]; intros s0; [reflexivity|]. simpl.
  rewrite IH. destruct existsb; reflexivity.
Qed.

(** Startup seeding is idempotent: after [on_startup] the three default
    storage locations and the two default tags exist by name, and running
    it again changes nothing (a location or tag of that name that already
    exists is never added twice). *)
Theorem on_startup_idempotent (s : DB) :
  on_startup (on_startup s) = on_startup s /\
  (forall n, In n DEFAULT_LOCATIONS -> In n (map loc_name (storage_locations (on_startup s)))) /\
  (forall n, In n (map fst DEFAULT_TAGS) -> In n (map tag_name (tags (on_startup s)))).
Proof.
  assert (HL : forall n, In n DEFAULT_LOCATIONS ->
                 In n (map loc_name (storage_locations (on_startup s)))).
  { intros n Hn. unfold on_startup. rewrite seed_tags_locations.
    apply seed_locations_names. right. exact Hn. }
  assert (HT : forall n, In n (map fst DEFAULT_TAGS) -> In n (map tag_name (tags (on_startup s)))).
  { intros n Hn. unfold on_startup. apply seed_tags_names. right. exact Hn. }
  split; [|split; assumption].
  unfold on_startup at 1. rewrite (seed_locations_done _ HL). apply seed_tags_done. exact HT.
Qed.

(** ** Names of storage locations and tags *)

Section SeedFold.
Variables (A : Type) (key : A -> string) (nm : DB -> list string) (add : A -> DB -> DB)
          (existing : list string).
Hypothesis nm_add : forall x acc, nm (add x acc) = nm acc ++ [key x].

Lemma seed_fold_NoDup (l : list A) (acc : DB) :
  NoDup (map key l) -> NoDup (nm acc) ->
  (forall m, In m (nm acc) -> In m existing \/ ~ In m (map key l)) ->
  NoDup (nm (fold_left (fun acc x => if existsb (String.eqb (key x)) existing then acc
                                     else add x acc) l acc)).
Proof.
  revert acc. induction l as [|x l IH]; intros acc Hl Hacc Hm; simpl; [exact Hacc|].
  inversion Hl as [|a b Hx Hl']. subst.
  destruct (existsb (String.eqb (key x)) existing) eqn:E; apply IH; try exact Hl'.
  - exact Hacc.
  - intros m Hin. destruct (Hm m Hin) as [H|H]; [left; exact H|right; intros H'; apply H; right; exact H'].
  - rewrite nm_add. apply NoDup_app; [exact Hacc|constructor; [intros []|constructor]|].
    intros m Hin [<-|[]]. destruct (Hm _ Hin) as [H|H].
    + apply existsb_eqb_In in H. congruence.
    + apply H. left. reflexivity.
  - intros m Hin. rewrite nm_add, in_app_iff in Hin. destruct Hin as [Hin|[<-|[]]].
    + destruct (Hm m Hin) as [H|H]; [left; exact H|right; intros H'; apply H; right; exact H'].
    + right. exact Hx.
Qed.

Lemma seed_fold_Forall (P : string -> Prop) (l : list A) (acc : DB) :
  Forall P (nm acc) -> Forall (fun x => P (key x)) l ->
  Forall P (nm (fold_left (fun acc x => if existsb (String.eqb (key x)) existing then acc
                                        else add x acc) l acc)).
Proof.
  revert acc. induction l as [|x l IH]; intros acc Hacc Hl; simpl; [exact Hacc|].
  inversion Hl. subst. apply IH; [|assumption].
  destruct existsb; [exact Hacc|]. rewrite nm_add. apply Forall_app. auto.
Qed.

End SeedFold.

Definition well_named (n : string) : Prop := n <> ""%string /\ strip n = n.

Lemma seed_locations_ok (s : DB) :
  NoDup (map loc_name (storage_locations s)) -> Forall well_named (map loc_name (storage_locations s)) ->
  NoDup (map loc_name (storage_locations (seed_locations s))) /\
  Forall well_named (map loc_name (storage_locations (seed_locations s))).
Proof.
  intros H1 H2. unfold seed_locations. split.
  - apply (seed_fold_NoDup string (fun n => n) (fun s => map loc_name (storage_locations s))
             add_location).
    + intros x acc. simpl. rewrite map_app. reflexivity.
    + repeat constructor; simpl; intuition discriminate.
    + exact H1.
    + intros m Hm. left. exact Hm.
  - apply (seed_fold_Forall string (fun n => n) (fun s => map loc_name (storage_locations s))
             add_location).
    + intros x acc. simpl. rewrite map_app. reflexivity.
    + exact H2.
    + repeat constructor; try discriminate; vm_compute; reflexivity.
Qed.

Lemma seed_tags_ok (s : DB) :
  NoDup (map tag_name (tags s)) -> Forall well_named (map tag_name (tags s)) ->
  NoDup (map tag_name (tags (seed_tags s))) /\
  Forall well_named (map tag_name (tags (seed_tags s))).
Proof.
  intros H1 H2. unfold seed_tags. split.
  - apply (seed_fold_NoDup (string * bool) fst (fun s => map tag_name (tags s))
             (fun td acc => add_tag (fst td) (snd td) acc)).
    + intros x acc. simpl. rewrite map_app. reflexivity.
    + repeat constructor; simpl; intuition discriminate.
    + exact H1.
    + intros m Hm. left. exact Hm.
  - apply (seed_fold_Forall (string * bool) fst (fun s => map tag_name (tags s))
             (fun td acc => add_tag (fst td) (snd td) acc)).
    + intros x acc. simpl. rewrite map_app. reflexivity.
    + exact H2.
    + repeat constructor; try discriminate; vm_compute; reflexivity.
Qed.

Lemma seed_locations_tags (s : DB) : tags (seed_locations s) = tags s.
Proof.
  unfold seed_locations. generalize (map loc_name (storage_locations s)) as ex. intros ex.
  generalize DEFAULT_LOCATIONS as l. intros l. revert s.
  induction l as [|x l IH]; intros s0; [reflexivity|]. simpl.
  rewrite IH. destruct existsb; reflexivity.
Qed.

Lemma step_catalog (s s' : DB) :
  step s s' ->
  (storage_locations s' = storage_locations s /\ tags s' = tags s) \/ s' = on_startup s \/
  (exists n, well_named n /\ ~ In n (map loc_name (storage_locations s)) /\ s' = add_location n s).
Proof.
  intros Hst. destruct Hst as [s|n s|f pid s|pid f s|pid a u today s|pid today s|pid s|pid f s].
  - right. left. reflexivity.
  - unfold create_location. destruct (String.eqb (strip n) "") eqn:E1; [left; auto|].
    destruct existsb eqn:E2; [left; auto|]. right. right. exists (strip n).
    split; [split; [intros H; rewrite H in E1; discriminate|apply strip_idem]|].
    split; [|reflexivity]. intros Hin. apply in_map_iff in Hin as (l & Hl & Hin).
    assert (existsb (fun l => String.eqb (loc_name l) (strip n)) (storage_locations s) = true)
      as Ht by (apply existsb_exists; exists l; split; [exact Hin|apply String.eqb_eq; exact Hl]).
    congruence.
  - left. unfold create_item. destruct (photo_step (f_photo f)) as [pe pf].
    destruct (exp_overflow f); [auto|].
    destruct (attr_errors f ++ pe); [|auto].
    destruct existsb; [auto|]. destruct (f_tag_ids f); split; reflexivity.
  - left. unfold save_edit. destruct (get_item s pid) as [it|]; [|auto].
    destruct (exp_overflow f); [auto|].
    match goal with |- storage_locations (snd (let '(_, _) := ?m in _)) = _ /\ _ =>
      destruct m as [pe pf] end.
    destruct (attr_errors f ++ pe); [|auto]. destruct (f_tag_ids f); split; reflexivity.
  - left. unfold update_amount. destruct (get_item s pid); [|auto].
    destruct (latest_revision _); split; reflexivity.
  - left. unfold soft_delete. destruct (get_item s pid); [|auto].
    destruct (latest_revision _); split; reflexivity.
  - left. unfold restore_item. destruct (get_item s pid); [|auto].
    destruct (restore_source _); split; reflexivity.
  - left. unfold reuse_label. destruct (get_item s pid); [|auto].
    destruct (exp_overflow f); [auto|].
    destruct (photo_step (f_photo f)). destruct (attr_errors f ++ _); split; reflexivity.
Qed.

(** In every reachable state no two storage locations share a name and no
    two tags share a name, and every such name is non-empty with no
    surrounding whitespace: [create_location] stores [name.strip()] only
    when it is non-empty and not taken, and the startup seeds add a default
    only when no row of that name exists. *)
Theorem reachable_unique_names (s : DB) :
  reachable s ->
  NoDup (map loc_name (storage_locations s)) /\ Forall well_named (map loc_name (storage_locations s)) /\
  NoDup (map tag_name (tags s)) /\ Forall well_named (map tag_name (tags s)).
Proof.
  induction 1 as [|s s' _ IH Hst]; [repeat constructor|].
  destruct IH as (H1 & H2 & H3 & H4).
  destruct (step_catalog s s' Hst) as [(-> & ->) | [-> | (n & Hn & Hnot & ->)]].
  - auto.
  - unfold on_startup. rewrite seed_tags_locations.
    destruct (seed_locations_ok s H1 H2) as [G1 G2].
    rewrite <- (seed_locations_tags s) in H3, H4.
    destruct (seed_tags_ok (seed_locations s) H3 H4) as [G3 G4]. auto.
  - simpl. rewrite map_app. repeat split; try assumption.
    + apply NoDup_app; [exact H1|constructor; [intros []|constructor]|].
      intros m Hm [<-|[]]. exact (Hnot Hm).
    + apply Forall_app. split; [exact H2|constructor; [exact Hn|constructor]].
Qed.

Lemma reachable_unique_names_witness :
  reachable demo_db /\
  (NoDup (map loc_name (storage_locations demo_db)) /\
   Forall well_named (map loc_name (storage_locations demo_db)) /\
   NoDup (map tag_name (tags demo_db)) /\ Forall well_named (map tag_name (tags demo_db))).
Proof.
  split; [exact demo_db_reachable|].
  apply reachable_unique_names. exact demo_db_reachable.
Defined.

(** ** Tag associations *)

Lemma In_set_item_tags (p : Z * Z) (iid : Z) (ts : list Tag) (s : DB) :
  In p (item_tags (set_item_tags iid ts s)) ->
  In p (item_tags s) \/ (fst p = iid /\ exists t, In t ts /\ tag_id t = snd p).
Proof.
  simpl. rewrite in_app_iff, filter_In, in_map_iff. intros [[H _]|(t & <- & Ht)]; [left; exact H|].
  right. simpl. split; [reflexivity|]. exists t. auto.
Qed.

Lemma tags_in_sub (s : DB) (ids : list Z) (t : Tag) : In t (tags_in s ids) -> In t (tags s).
Proof. unfold tags_in. rewrite filter_In. tauto. Qed.

Definition tag_row_ok (s : DB) (p : Z * Z) : Prop :=
  (exists it, In it (food_items s) /\ fi_id it = fst p) /\
  (exists t, In t (tags s) /\ tag_id t = snd p).

Lemma step_item_tags (s s' : DB) :
  step s s' -> forall p, In p (item_tags s') -> In p (item_tags s) \/ tag_row_ok s' p.
Proof.
  intros Hst p Hp. destruct Hst as [s|n s|f pid s|pid f s|pid a u today s|pid today s|pid s|pid f s].
  - left. unfold on_startup, seed_tags, seed_locations in Hp.
    revert Hp. generalize (map tag_name (tags (seed_locations s))) as ex2. intros ex2.
    generalize (map loc_name (storage_locations s)) as ex1. intros ex1.
    assert (G : forall {A} (g : DB -> A -> DB) (l : list A) (s0 : DB),
               (forall acc x, item_tags (g acc x) = item_tags acc) ->
               item_tags (fold_left g l s0) = item_tags s0).
    { intros A g l. induction l as [|x l IH]; intros s0 Hg; [reflexivity|]. simpl.
      rewrite IH, Hg; auto. }
    rewrite G by (intros; destruct existsb; reflexivity).
    rewrite G by (intros; destruct existsb; reflexivity). auto.
  - left. revert Hp. unfold create_location. destruct String.eqb; [auto|].
    destruct existsb; auto.
  - revert Hp. unfold create_item. destruct (photo_step (f_photo f)) as [pe pf].
    destruct (exp_overflow f); [auto|].
    destruct (attr_errors f ++ pe); [|auto].
    destruct existsb; [auto|]. simpl snd.
    destruct (f_tag_ids f) as [|z zs]; [simpl; auto|].
    intros Hp. change (In p (item_tags (set_item_tags (next_id (map fi_id (food_items s)))
       (tags_in (add_item (mkItem (next_id (map fi_id (food_items s))) pid) s) (z :: zs))
       (add_item (mkItem (next_id (map fi_id (food_items s))) pid) s)))) in Hp.
    apply In_set_item_tags in Hp as [Hp|(Hf & t & Ht & Hid)]; [left; exact Hp|right].
    split.
    + eexists. split; [simpl; apply in_or_app; right; left; reflexivity|]. symmetry. exact Hf.
    + exists t. split; [|exact Hid]. apply tags_in_sub in Ht. exact Ht.
  - revert Hp. unfold save_edit. destruct (get_item s pid) as [it|] eqn:G; [|auto].
    destruct (exp_overflow f); [auto|].
    match goal with |- In p (item_tags (snd (let '(_, _) := ?m in _))) -> _ =>
      destruct m as [pe pf] end.
    destruct (attr_errors f ++ pe); [|auto]. simpl snd. intros Hp.
    assert (Hp' : In p (item_tags (set_item_tags (fi_id it)
                    (match f_tag_ids f with [] => [] | ids => tags_in s ids end) s))).
    { destruct (f_tag_ids f); exact Hp. }
    apply In_set_item_tags in Hp' as [Hp'|(Hf & t & Ht & Hid)]; [left; exact Hp'|right].
    split.
    + exists it. split; [|symmetry; exact Hf]. apply get_item_In in G.
      destruct (f_tag_ids f); exact G.
    + exists t. split; [|exact Hid]. destruct (f_tag_ids f); [destruct Ht|].
      apply tags_in_sub in Ht. exact Ht.
  - left. revert Hp. unfold update_amount. destruct (get_item s pid); [|auto].
    destruct (latest_revision _); auto.
  - left. revert Hp. unfold soft_delete. destruct (get_item s pid); [|auto].
    destruct (latest_revision _); auto.
  - left. revert Hp. unfold restore_item. destruct (get_item s pid); [|auto].
    destruct (restore_source _); auto.
  - left. revert Hp. unfold reuse_label. destruct (get_item s pid); [|auto].
    destruct (exp_overflow f); [auto|].
    destruct (photo_step (f_photo f)). destruct (attr_errors f ++ _); auto.
Qed.

Lemma tag_row_ok_grows (s s' : DB) (p : Z * Z) : grows s s' -> tag_row_ok s p -> tag_row_ok s' p.
Proof.
  intros ((a & Ha) & _ & _ & (d & Hd) & _) ((it & Hit & Hi) & (t & Ht & Htid)).
  split; [exists it|exists t]; split; auto; [rewrite Ha|rewrite Hd]; apply in_or_app; left; assumption.
Qed.

(** In every reachable state every row of [item_tags] joins an existing
    item with an existing tag: create and edit associate only the tags that
    [Tag.id.in_(tag_ids)] finds, so a submitted tag id with no tag is
    dropped rather than stored. *)
Theorem reachable_tag_rows_ok (s : DB) : reachable s -> Forall (tag_row_ok s) (item_tags s).
Proof.
  induction 1 as [|s s' _ IH Hst]; [constructor|].
  apply Forall_forall. intros p Hp. rewrite Forall_forall in IH.
  destruct (step_item_tags s s' Hst p Hp) as [Hold|Hnew]; [|exact Hnew].
  exact (tag_row_ok_grows s s' p (step_grows s s' Hst) (IH p Hold)).
Qed.

Lemma reachable_tag_rows_ok_witness :
  reachable demo_db /\ Forall (tag_row_ok demo_db) (item_tags demo_db).
Proof.
  split; [exact demo_db_reachable|]. apply reachable_tag_rows_ok. exact demo_db_reachable.
Defined.

(** ** The history page *)

(** In every reachable state the history page of an existing item lists
    exactly that item's revisions, newest first: their numbers are
    [N, N-1, ..., 1], and the first entry is the item's latest revision. *)
Theorem item_history_newest_first (s : DB) (pid : string) (it : FoodItem) :
  reachable s -> get_item s pid = Some it ->
  exists hs,
    item_history pid s = Some (HistoryPage hs) /\
    hs <> [] /\
    map revision_num hs = rev (seq 1 (length hs)) /\
    hd_error hs = latest_revision (item_revs s (fi_id it)) /\
    (forall r, In r hs <-> In r (item_revisions s) /\ item_id r = fi_id it).
Proof.
  intros Hr G. pose proof (reachable_Inv s Hr) as HI. pose proof (get_item_In _ _ _ G) as Hit.
  destruct (inv_nums s HI it Hit) as [Hne Hseq].
  exists (rev (item_revs s (fi_id it))). unfold item_history. rewrite G.
  split; [reflexivity|]. rewrite (Inv_item_revs s it HI Hit).
  split; [|split; [|split]].
  - intros E. apply Hne. rewrite <- (rev_involutive (revs_in_order _ _)), E. reflexivity.
  - rewrite map_rev, Hseq, length_rev. reflexivity.
  - unfold latest_revision, last_opt. destruct (rev (revs_in_order s (fi_id it))); reflexivity.
  - intros r. rewrite <- in_rev. apply revs_in_order_In.
Qed.

Lemma item_history_newest_first_witness :
  reachable demo_db /\ get_item demo_db "tok" = Some demo_item /\
  exists hs,
    item_history "tok" demo_db = Some (HistoryPage hs) /\
    hs <> [] /\
    map revision_num hs = rev (seq 1 (length hs)) /\
    hd_error hs = latest_revision (item_revs demo_db (fi_id demo_item)) /\
    (forall r, In r hs <-> In r (item_revisions demo_db) /\ item_id r = fi_id demo_item).
Proof.
  split; [exact demo_db_reachable|]. split; [vm_compute; reflexivity|].
  apply item_history_newest_first; [exact demo_db_reachable|vm_compute; reflexivity].
Defined.

(** ** The edit form after a soft delete *)

Lemma latest_active_snoc_deleted (R : list ItemRevision) (d : ItemRevision) :
  is_deleted d = true -> latest_active_revision (R ++ [d]) = latest_active_revision R.
Proof.
  intros Hd. unfold latest_active_revision. rewrite rev_app_distr. simpl. rewrite Hd. reflexivity.
Qed.

Lemma latest_active_none_deleted (R : list ItemRevision) (p : ItemRevision) :
  latest_active_revision R = None -> latest_revision R = Some p -> is_deleted p = true.
Proof.
  intros Ha Hl. apply last_opt_In in Hl. unfold latest_active_revision in Ha.
  pose proof (find_none _ _ Ha p (proj1 (in_rev R p) Hl)) as H. simpl in H.
  apply negb_false_iff. exact H.
Qed.

(** In every reachable state, soft-deleting an existing item does not
    change what its edit form is pre-filled with: the same tag ids, and a
    revision with the same displayable fields and deletion flag; when the
    item had an active revision it is that very revision (the form shows
    [latest_active_revision] and the delete appends a deleted one). *)
Theorem soft_delete_keeps_edit_form (s : DB) (pid : string) (it : FoodItem) (today : Z) :
  reachable s -> get_item s pid = Some it ->
  exists r r' ids,
    edit_form pid s = Some (EditFormPage (Some r) ids) /\
    edit_form pid (snd (soft_delete pid today s)) = Some (EditFormPage (Some r') ids) /\
    displayable r' = displayable r /\ is_deleted r' = is_deleted r /\
    (is_deleted r = false -> r' = r).
Proof.
  intros Hr G. pose proof (reachable_Inv s Hr) as HI. pose proof (get_item_In _ _ _ G) as Hit.
  pose proof (step_Inv s _ HI (step_delete pid today s)) as HI'.
  destruct (soft_delete_spec s pid it today HI G) as (p & d & Hl & Hp & Hs & Hid & _ & _ & Hdel & Hdisp).
  rewrite Hs in HI' |- *.
  assert (Hrevs : item_revs (add_revision d s) (fi_id it) = item_revs s (fi_id it) ++ [d]).
  { rewrite (Inv_item_revs _ it HI' Hit), (Inv_item_revs s it HI Hit).
    rewrite revs_in_order_add_revision, Hid, Z.eqb_refl. reflexivity. }
  unfold edit_form. rewrite G.
  change (get_item (add_revision d s) pid) with (get_item s pid). rewrite G, Hrevs.
  rewrite (latest_active_snoc_deleted _ d Hdel).
  change (item_tag_ids (add_revision d s) (fi_id it)) with (item_tag_ids s (fi_id it)).
  destruct (latest_active_revision (item_revs s (fi_id it))) as [a|] eqn:La.
  - exists a, a, (item_tag_ids s (fi_id it)). auto.
  - exists p, d, (item_tag_ids s (fi_id it)). rewrite Hl. unfold latest_revision at 1.
    rewrite last_opt_app_last. repeat split; try assumption.
    + rewrite Hdel. symmetry. exact (latest_active_none_deleted _ p La Hl).
    + intros Hp'. rewrite (latest_active_none_deleted _ p La Hl) in Hp'. discriminate.
Qed.

Lemma soft_delete_keeps_edit_form_witness :
  reachable demo_db /\ get_item demo_db "tok" = Some demo_item /\
  exists r r' ids,
    edit_form "tok" demo_db = Some (EditFormPage (Some r) ids) /\
    edit_form "tok" (snd (soft_delete "tok" 738001%Z demo_db)) = Some (EditFormPage (Some r') ids) /\
    displayable r' = displayable r /\ is_deleted r' = is_deleted r /\
    (is_deleted r = false -> r' = r).
Proof.
  split; [exact demo_db_reachable|]. split; [vm_compute; reflexivity|].
  apply (soft_delete_keeps_edit_form demo_db "tok" demo_item 738001%Z); [exact demo_db_reachable|vm_compute; reflexivity].
Defined.

(** ** Soft delete and restore as seen on the dashboard *)

Lemma fold_max_le (l : list nat) (n : nat) :
  (forall x, In x l -> x <= n) -> fold_right Nat.max 0 l <= n.
Proof.
  induction l as [|y l IH]; simpl; intros H; [lia|].
  specialize (H y (or_introl eq_refl)) as Hy. assert (fold_right Nat.max 0 l <= n) by auto. lia.
Qed.

Lemma NoDup_map_inj {A B} (f : A -> B) (l : list A) (x y : A) :
  NoDup (map f l) -> In x l -> In y l -> f x = f y -> x = y.
Proof.
  induction l as [|z l IH]; simpl; [tauto|]. intros Hnd Hx Hy E.
  inversion Hnd as [|a b Hz Hnd']. subst.
  destruct Hx as [<-|Hx], Hy as [<-|Hy]; auto.
  - exfalso. apply Hz. rewrite E. apply in_map. exact Hy.
  - exfalso. apply Hz. rewrite <- E. apply in_map. exact Hx.
Qed.

(** In an invariant state, the latest row of an item is its latest revision. *)
Lemma latest_rows_item (s : DB) (it : FoodItem) (r : ItemRevision) :
  Inv s -> In it (food_items s) -> item_id r = fi_id it ->
  In r (latest_rows s) <-> latest_revision (item_revs s (fi_id it)) = Some r.
Proof.
  intros HI Hit Hid. destruct (inv_nums s HI it Hit) as [Hne Hseq].
  destruct (Inv_latest s it HI Hit) as (p & Hl & Hp & Hpid & Hn).
  assert (Hmax : max_rev_num s (fi_id it) = length (revs_in_order s (fi_id it))).
  { unfold max_rev_num. rewrite Hseq. apply Nat.le_antisymm.
    - apply fold_max_le. intros x Hx. apply in_seq in Hx. lia.
    - apply le_fold_max. apply in_seq.
      destruct (revs_in_order s (fi_id it)); [congruence|simpl; lia]. }
  rewrite Hl. unfold latest_rows. rewrite filter_In, Nat.eqb_eq, Hid, Hmax. split.
  - intros [Hr Hrn]. f_equal.
    assert (Hnd : NoDup (map revision_num (revs_in_order s (fi_id it)))).
    { rewrite Hseq. apply seq_NoDup. }
    apply (NoDup_map_inj revision_num _ p r Hnd).
    + apply revs_in_order_In. auto.
    + apply revs_in_order_In. auto.
    + congruence.
  - intros E. injection E as <-. auto.
Qed.

Lemma item_revs_snoc (s : DB) (it : FoodItem) (r : ItemRevision) :
  Inv s -> Inv (add_revision r s) -> In it (food_items s) -> item_id r = fi_id it ->
  item_revs (add_revision r s) (fi_id it) = item_revs s (fi_id it) ++ [r].
Proof.
  intros HI HI' Hit Hid. rewrite (Inv_item_revs _ it HI' Hit), (Inv_item_revs s it HI Hit).
  rewrite revs_in_order_add_revision, Hid, Z.eqb_refl. reflexivity.
Qed.

(** In every reachable state, soft-deleting an existing item removes it from
    the dashboard under every text and location filter while deleted items
    are hidden, yet with deleted items shown (and no filter) it is listed
    through a deleted revision; restoring it afterwards lists it again on
    the default dashboard through a non-deleted revision. *)
Theorem soft_delete_restore_dashboard (s : DB) (pid : string) (it : FoodItem) (today : Z) :
  reachable s -> get_item s pid = Some it ->
  let s1 := snd (soft_delete pid today s) in
  let s2 := snd (restore_item pid s1) in
  (forall q location r, In r (dashboard_revisions s1 q location false) -> item_id r <> fi_id it) /\
  (exists d, In d (dashboard_revisions s1 "" None true) /\ item_id d = fi_id it /\
             is_deleted d = true) /\
  (exists r, In r (dashboard_revisions s2 "" None false) /\ item_id r = fi_id it /\
             is_deleted r = false).
Proof.
  intros Hr G s1 s2. pose proof (reachable_Inv s Hr) as HI. pose proof (get_item_In _ _ _ G) as Hit.
  pose proof (step_Inv s _ HI (step_delete pid today s)) as HI1. fold s1 in HI1.
  pose proof (step_Inv s1 _ HI1 (step_restore pid s1)) as HI2. fold s2 in HI2.
  destruct (soft_delete_spec s pid it today HI G) as (p & d & Hl & Hp & Hs & Hid & _ & _ & Hdel & _).
  fold s1 in Hs. rewrite Hs in HI1.
  assert (Hit1 : In it (food_items s1)) by (rewrite Hs; exact Hit).
  assert (Hl1 : latest_revision (item_revs s1 (fi_id it)) = Some d).
  { rewrite Hs, (item_revs_snoc s it d HI HI1 Hit Hid). apply last_opt_app_last. }
  rewrite <- Hs in HI1. split; [|split].
  - intros q location r Hin E. apply In_dashboard_revisions in Hin as (Hlr & [H|Hnd] & _).
    + discriminate.
    + apply (latest_rows_item s1 it r HI1 Hit1 E) in Hlr. rewrite Hl1 in Hlr.
      injection Hlr as <-. congruence.
  - exists d. split; [|auto]. apply In_dashboard_revisions. repeat split; auto.
    + apply (latest_rows_item s1 it d HI1 Hit1 Hid). exact Hl1.
    + intros l E. discriminate.
  - assert (G1 : get_item s1 pid = Some it) by (rewrite Hs; exact G).
    destruct (restore_item_spec s1 pid it HI1 G1)
      as (src & fin & _ & _ & Hs2 & Hfid & _ & _ & Hfdel & _).
    fold s2 in Hs2.
    assert (Hit2 : In it (food_items s2)) by (rewrite Hs2; exact Hit1).
    exists fin. split; [|auto]. apply In_dashboard_revisions. repeat split; auto.
    + apply (latest_rows_item s2 it fin HI2 Hit2 Hfid).
      rewrite (Inv_item_revs s2 it HI2 Hit2), Hs2, revs_in_order_add_links_db,
              revs_in_order_add_revision, Hfid, Z.eqb_refl.
      apply last_opt_app_last.
    + intros l E. discriminate.
Qed.

Lemma soft_delete_restore_dashboard_witness :
  reachable demo_db /\ get_item demo_db "tok" = Some demo_item /\
  (let s1 := snd (soft_delete "tok" 738001%Z demo_db) in
   let s2 := snd (restore_item "tok" s1) in
   (forall q location r, In r (dashboard_revisions s1 q location false) ->
                         item_id r <> fi_id demo_item) /\
   (exists d, In d (dashboard_revisions s1 "" None true) /\ item_id d = fi_id demo_item /\
              is_deleted d = true) /\
   (exists r, In r (dashboard_revisions s2 "" None false) /\ item_id r = fi_id demo_item /\
              is_deleted r = false)).
Proof.
  split; [exact demo_db_reachable|]. split; [vm_compute; reflexivity|].
  apply (soft_delete_restore_dashboard demo_db "tok" demo_item 738001%Z);
    [exact demo_db_reachable|vm_compute; reflexivity].
Defined.

(** In every reachable state, the quick amount update of an existing item
    appends a new latest revision that carries the submitted amount and the
    previous latest revision's deletion flag; so updating the amount of a
    soft-deleted item leaves it deleted and off the dashboard whenever
    deleted items are hidden, whatever the text and location filters. *)
Theorem update_amount_keeps_deletion (s : DB) (pid : string) (it : FoodItem)
    (amt : option QArith_base.Q) (unit : string) (today : Z) :
  reachable s -> get_item s pid = Some it ->
  let s' := snd (update_amount pid amt unit today s) in
  exists p u,
    latest_revision (item_revs s (fi_id it)) = Some p /\
    latest_revision (item_revs s' (fi_id it)) = Some u /\
    revision_num u = S (revision_num p) /\ amount u = amt /\
    is_deleted u = is_deleted p /\
    (is_deleted p = true ->
     forall q location r, In r (dashboard_revisions s' q location false) -> item_id r <> fi_id it).
Proof.
  intros Hr G s'. pose proof (reachable_Inv s Hr) as HI. pose proof (get_item_In _ _ _ G) as Hit.
  pose proof (step_Inv s _ HI (step_amount pid amt unit today s)) as HI'. fold s' in HI'.
  destruct (Inv_latest s it HI Hit) as (p0 & Hl0 & _ & _ & Hn0).
  destruct (update_amount_spec s pid it amt unit today HI G)
    as (p & u & Hl & Hs & Hid & _ & _ & _ & _ & _ & _ & _ & Hamt & _ & Hdel).
  rewrite Hl0 in Hl. injection Hl as <-. fold s' in Hs.
  assert (Hit' : In it (food_items s')) by (rewrite Hs; exact Hit).
  assert (Hl' : latest_revision (item_revs s' (fi_id it)) = Some u).
  { rewrite (Inv_item_revs s' it HI' Hit'), Hs, revs_in_order_add_links_db,
            revs_in_order_add_revision, Hid, Z.eqb_refl.
    apply last_opt_app_last. }
  assert (Hnum : revision_num u = S (revision_num p0)).
  { apply (f_equal item_revisions) in Hs. revert Hs. unfold s', update_amount.
    rewrite G, Hl0. simpl. intros Hs. apply app_inv_head in Hs.
    injection Hs as <-. reflexivity. }
  exists p0, u. split; [exact Hl0|]. split; [exact Hl'|].
  split; [exact Hnum|]. split; [exact Hamt|]. split; [exact Hdel|].
  intros Hd q location r Hin E. apply In_dashboard_revisions in Hin as (Hlr & [H|Hnd] & _).
  - discriminate.
  - apply (latest_rows_item s' it r HI' Hit' E) in Hlr. rewrite Hl' in Hlr.
    injection Hlr as <-. congruence.
Qed.

Lemma update_amount_keeps_deletion_witness :
  let s := snd (soft_delete "tok" 738001%Z demo_db) in
  reachable s /\ get_item s "tok" = Some demo_item /\
  (let s' := snd (update_amount "tok" None "g" 738001%Z s) in
   exists p u,
     latest_revision (item_revs s (fi_id demo_item)) = Some p /\
     latest_revision (item_revs s' (fi_id demo_item)) = Some u /\
     revision_num u = S (revision_num p) /\ amount u = None /\
     is_deleted u = is_deleted p /\
     (is_deleted p = true ->
      forall q location r, In r (dashboard_revisions s' q location false) ->
                           item_id r <> fi_id demo_item)).
Proof.
  intros s.
  assert (Hr : reachable s)
    by (apply (reach_step demo_db); [exact demo_db_reachable|apply step_delete]).
  split; [exact Hr|]. split; [vm_compute; reflexivity|].
  apply (update_amount_keeps_deletion s "tok" demo_item None "g" 738001%Z);
    [exact Hr|vm_compute; reflexivity].
Defined.

(** ** Photo uploads *)

(** A photo is saved only under the name [hex ++ ext] where [ext] is one of
    the allowed extensions and the content is at most 10 MB; an upload with
    an empty filename is saved with the extension ".jpg". *)
Theorem save_photo_saved_name (hex allowed_repr filename : string) (size : Z) (n : string) :
  save_photo hex allowed_repr filename size = PhotoSaved n ->
  exists ext, In ext ALLOWED_EXTENSIONS /\ n = (hex ++ ext)%string /\
              (size <= MAX_SIZE_BYTES)%Z /\ (filename = ""%string -> ext = ".jpg"%string).
Proof.
  unfold save_photo. intros H.
  set (ext := if String.eqb filename "" then ".jpg"%string
              else lower (string_of_list_ascii (path_suffix (list_ascii_of_string filename)))) in H.
  destruct (existsb (String.eqb ext) ALLOWED_EXTENSIONS) eqn:Ha; [|discriminate].
  destruct (MAX_SIZE_BYTES <? size)%Z eqn:Hs; [discriminate|].
  injection H as <-. exists ext. split; [apply existsb_eqb_In; exact Ha|].
  split; [reflexivity|]. split; [apply Z.ltb_ge; exact Hs|].
  intros ->. reflexivity.
Qed.

Lemma save_photo_saved_name_witness :
  save_photo "ab" "{...}" "a/b.JPG" 5%Z = PhotoSaved "ab.jpg" /\
  exists ext, In ext ALLOWED_EXTENSIONS /\ "ab.jpg"%string = ("ab" ++ ext)%string /\
              (5 <= MAX_SIZE_BYTES)%Z /\ ("a/b.JPG"%string = ""%string -> ext = ".jpg"%string).
Proof.
  split; [vm_compute; reflexivity|].
  apply (save_photo_saved_name "ab" "{...}" "a/b.JPG" 5%Z "ab.jpg"). vm_compute. reflexivity.
Defined.

(** A non-empty filename whose last path component has no suffix (no dot,
    only a leading dot, or a trailing dot) is rejected as the file type ""
    whatever the size of the content: the type check comes before the size
    check. *)
Theorem save_photo_no_suffix_rejected (hex allowed_repr filename : string) (size : Z) :
  filename <> ""%string -> path_suffix (list_ascii_of_string filename) = [] ->
  save_photo hex allowed_repr filename size =
  PhotoRejected ("File type " ++ "" ++ " not allowed. Use: " ++ allowed_repr)%string.
Proof.
  intros Hn Hs. unfold save_photo.
  destruct (String.eqb filename "") eqn:E; [apply String.eqb_eq in E; contradiction|].
  rewrite Hs. reflexivity.
Qed.

Lemma save_photo_no_suffix_rejected_witness :
  "p."%string <> ""%string /\ path_suffix (list_ascii_of_string "p.") = [] /\
  save_photo "ab" "{...}" "p." 99999999%Z =
  PhotoRejected ("File type " ++ "" ++ " not allowed. Use: " ++ "{...}")%string.
Proof.
  split; [discriminate|]. split; [vm_compute; reflexivity|].
  apply save_photo_no_suffix_rejected; [discriminate|vm_compute; reflexivity].
Defined.

(** ** Location sections of the dashboard *)

Lemma In_location_sections (locs : list StorageLocation) (revisions : list ItemRevision)
    (l : StorageLocation) (rs : list ItemRevision) :
  In (l, rs) (flat_map (fun loc =>
                match filter (fun r => Z.eqb (storage_location_id r) (loc_id loc)) revisions with
                | [] => []
                | items => [(loc, items)]
                end) locs) <->
  In l locs /\ rs = filter (fun r => Z.eqb (storage_location_id r) (loc_id l)) revisions /\
  rs <> [].
Proof.
  rewrite in_flat_map. split.
  - intros (loc & Hloc & Hin).
    destruct (filter _ revisions) as [|x xs] eqn:E; [contradiction|].
    destruct Hin as [Heq|[]]. injection Heq as <- <-.
    split; [exact Hloc|]. split; [symmetry; exact E|discriminate].
  - intros (Hl & -> & Hne). exists l. split; [exact Hl|].
    destruct (filter _ revisions) as [|x xs]; [contradiction|]. left. reflexivity.
Qed.

(** The location sections of the dashboard group the listed revisions by
    storage location: every section is non-empty and holds only revisions
    of its own location, and a listed revision appears in a section iff a
    storage location with its storage_location_id exists. A listed revision
    whose location id names no location is in no section. *)
Theorem location_sections_cover (s : DB) (q : string) (location : option Z)
    (show_deleted : bool) (today : Z) :
  let v := item_list s q location show_deleted today in
  (forall l rs, In (l, rs) (sections v) ->
     In l (storage_locations s) /\ rs <> [] /\
     Forall (fun r => storage_location_id r = loc_id l) rs) /\
  (forall r, (exists l rs, In (l, rs) (sections v) /\ In r rs) <->
     In r (dashboard_revisions s q location show_deleted) /\
     exists l, In l (storage_locations s) /\ loc_id l = storage_location_id r).
Proof.
  intros v. unfold v, item_list, sections. split.
  - intros l rs Hin. apply In_location_sections in Hin as (Hl & -> & Hne).
    split; [apply In_sort_by in Hl; exact Hl|]. split; [exact Hne|].
    apply Forall_forall. intros r Hr. apply filter_In in Hr as [_ E].
    apply Z.eqb_eq. exact E.
  - intros r. split.
    + intros (l & rs & Hin & Hr). apply In_location_sections in Hin as (Hl & -> & _).
      apply filter_In in Hr as [Hr E]. split; [exact Hr|].
      exists l. split; [apply In_sort_by in Hl; exact Hl|].
      symmetry. apply Z.eqb_eq. exact E.
    + intros (Hr & l & Hl & E).
      exists l, (filter (fun r => Z.eqb (storage_location_id r) (loc_id l))
                        (dashboard_revisions s q location show_deleted)).
      split.
      * apply In_location_sections. split; [apply In_sort_by; exact Hl|].
        split; [reflexivity|].
        intros Hnil. assert (Hf : In r (filter (fun r => Z.eqb (storage_location_id r) (loc_id l))
                                               (dashboard_revisions s q location show_deleted))).
        { apply filter_In. split; [exact Hr|]. apply Z.eqb_eq. symmetry. exact E. }
        rewrite Hnil in Hf. contradiction.
      * apply filter_In. split; [exact Hr|]. apply Z.eqb_eq. symmetry. exact E.
Qed.

(** ** Default-tag sections of the dashboard *)

Lemma In_nonempty_sections {A B : Type} (g : A -> list B) (l : list A) (x : A) (rs : list B) :
  In (x, rs) (flat_map (fun a => match g a with [] => [] | ys => [(a, ys)] end) l) <->
  In x l /\ rs = g x /\ rs <> [].
Proof.
  rewrite in_flat_map. split.
  - intros (a & Ha & Hin). destruct (g a) as [|y ys] eqn:E; [contradiction|].
    destruct Hin as [Heq|[]]. injection Heq as <- <-.
    split; [exact Ha|]. split; [symmetry; exact E|discriminate].
  - intros (Hx & -> & Hne). exists x. split; [exact Hx|].
    destruct (g x) as [|y ys]; [contradiction|]. left. reflexivity.
Qed.

Lemma find_unique {A : Type} (f : A -> bool) (l : list A) (x : A) :
  In x l -> f x = true -> (forall y, In y l -> f y = true -> y = x) -> find f l = Some x.
Proof.
  induction l as [|a l IH]; simpl; intros Hx Hf Hu; [contradiction|].
  destruct (f a) eqn:Ea.
  - rewrite (Hu a (or_introl eq_refl) Ea). reflexivity.
  - destruct Hx as [<-|Hx]; [congruence|].
    apply IH; auto.
Qed.

Lemma latest_rows_unique (s : DB) (r r' : ItemRevision) :
  Inv s -> In r (latest_rows s) -> In r' (latest_rows s) -> item_id r' = item_id r -> r' = r.
Proof.
  intros HI Hr Hr' E. destruct (latest_rows_max s r Hr) as [Hri _].
  destruct (inv_owner s HI r Hri) as (it & Hit & Hid).
  apply (latest_rows_item s it r HI Hit (eq_sym Hid)) in Hr.
  apply (latest_rows_item s it r' HI Hit (eq_trans E (eq_sym Hid))) in Hr'.
  congruence.
Qed.

Lemma In_tag_items (s : DB) (t : Tag) (it : FoodItem) :
  In it (tag_items s t) <-> In it (food_items s) /\ In (fi_id it, tag_id t) (item_tags s).
Proof.
  unfold tag_items. rewrite filter_In, existsb_exists. split.
  - intros (Hit & [a b] & Hp & E). apply andb_true_iff in E as [E1 E2]. simpl in E1, E2.
    apply Z.eqb_eq in E1, E2. subst. split; assumption.
  - intros (Hit & Hp). split; [exact Hit|]. exists (fi_id it, tag_id t).
    split; [exact Hp|]. simpl. rewrite !Z.eqb_refl. reflexivity.
Qed.

(** In every reachable state, for every filter setting, the dashboard's
    default-tag sections are exactly the listed revisions grouped by tag: a
    revision is in the section of tag t iff t is a stored default tag, the
    revision is in the filtered listing, and its item carries t in the
    item_tags table. Tags that are not default never get a section. *)
Theorem tag_sections_cover (s : DB) (q : string) (location : option Z)
    (show_deleted : bool) (today : Z) (t : Tag) (r : ItemRevision) :
  reachable s ->
  (exists rs, In (t, rs) (tag_sections (item_list s q location show_deleted today)) /\ In r rs) <->
  In t (tags s) /\ is_default t = true /\
  In r (dashboard_revisions s q location show_deleted) /\
  In (item_id r, tag_id t) (item_tags s).
Proof.
  intros Hr. pose proof (reachable_Inv s Hr) as HI.
  set (revisions := dashboard_revisions s q location show_deleted).
  set (g := fun t0 => sort_by tag_key_le
              (flat_map (fun it => match rev_by_item revisions (fi_id it) with
                                   | Some r0 => [r0]
                                   | None => []
                                   end) (tag_items s t0))).
  change (tag_sections (item_list s q location show_deleted today)) with
    (flat_map (fun a => match g a with [] => [] | ys => [(a, ys)] end)
              (sort_by tag_name_le (filter is_default (tags s)))).
  assert (Hg : forall r0, In r0 (g t) <->
             exists it, In it (tag_items s t) /\ rev_by_item revisions (fi_id it) = Some r0).
  { intros r0. unfold g. rewrite In_sort_by, in_flat_map. split.
    - intros (it & Hit & Hin). exists it. split; [exact Hit|].
      destruct (rev_by_item revisions (fi_id it)); [|contradiction].
      destruct Hin as [<-|[]]. reflexivity.
    - intros (it & Hit & E). exists it. split; [exact Hit|]. rewrite E. left. reflexivity. }
  split.
  - intros (rs & Hin & Hrs). apply In_nonempty_sections in Hin as (Ht & -> & _).
    apply In_sort_by, filter_In in Ht as [Ht Hd].
    apply Hg in Hrs as (it & Hit & E). apply In_tag_items in Hit as [_ Hp].
    unfold rev_by_item in E. apply find_some in E as [Hin E].
    apply in_rev in Hin. apply Z.eqb_eq in E.
    split; [exact Ht|]. split; [exact Hd|]. split; [exact Hin|]. rewrite E. exact Hp.
  - intros (Ht & Hd & Hin & Hp).
    assert (Hlr : In r (latest_rows s)) by (apply In_dashboard_revisions in Hin as [H _]; exact H).
    destruct (latest_rows_max s r Hlr) as [Hri _].
    destruct (inv_owner s HI r Hri) as (it & Hit & Hid).
    assert (E : rev_by_item revisions (fi_id it) = Some r).
    { unfold rev_by_item. apply find_unique.
      - apply in_rev in Hin. exact Hin.
      - rewrite Hid. apply Z.eqb_refl.
      - intros y Hy Ey. apply in_rev in Hy. apply Z.eqb_eq in Ey.
        apply (latest_rows_unique s r y HI Hlr); [|congruence].
        apply In_dashboard_revisions in Hy as [H _]. exact H. }
    assert (Hr0 : In r (g t)).
    { apply Hg. exists it. split; [|exact E]. apply In_tag_items. split; [exact Hit|].
      rewrite Hid. exact Hp. }
    exists (g t). split; [|exact Hr0].
    apply In_nonempty_sections. split; [apply In_sort_by, filter_In; split; assumption|].
    split; [reflexivity|]. intros Hnil. rewrite Hnil in Hr0. contradiction.
Qed.

Lemma tag_sections_cover_witness :
  let t := hd (mkTag 0 "" false) (tags demo_db) in
  reachable demo_db /\
  ((exists rs, In (t, rs) (tag_sections (item_list demo_db "" None false 738001%Z)) /\
               In demo_rev1 rs) <->
   In t (tags demo_db) /\ is_default t = true /\
   In demo_rev1 (dashboard_revisions demo_db "" None false) /\
   In (item_id demo_rev1, tag_id t) (item_tags demo_db)).
Proof.
  intros t. split; [exact demo_db_reachable|].
  apply (tag_sections_cover demo_db "" None false 738001%Z t demo_rev1). exact demo_db_reachable.
Defined.

(** ** Successful edits *)

Lemma tags_in_nil (s : DB) : tags_in s [] = [].
Proof. unfold tags_in. induction (tags s) as [|t ts IH]; simpl; auto. Qed.

Lemma save_edit_ok (s : DB) (pid : string) (it : FoodItem) (f : ItemForm) :
  Inv s -> get_item s pid = Some it -> exp_overflow f = false -> form_errors f = [] ->
  exists p, latest_revision (item_revs s (fi_id it)) = Some p /\
  save_edit pid f s =
    (Redirect ("/i/" ++ pid),
     add_links_db (next_id (map rev_id (item_revisions s))) (snd (check_links (form_links f)))
       (add_revision
          (form_revision (next_id (map rev_id (item_revisions s))) (fi_id it)
             (S (revision_num p)) f
             (match f_photo f with
              | Some (PhotoSaved n) => Some n
              | Some (PhotoRejected _) => None
              | None => if f_keep_photo f then photo_filename p else None
              end))
          (set_item_tags (fi_id it) (tags_in s (f_tag_ids f)) s))).
Proof.
  intros HI G Ho He. pose proof (get_item_In _ _ _ G) as Hit.
  destruct (Inv_latest s it HI Hit) as (p & Hl & _). exists p. split; [exact Hl|].
  unfold save_edit. rewrite G, Ho, Hl. unfold form_errors in He.
  destruct (f_photo f) as [[n|m]|] eqn:Hph; cbn [photo_step fst] in He |- *.
  - rewrite He. destruct (f_tag_ids f); [rewrite tags_in_nil|]; reflexivity.
  - destruct (attr_errors f); discriminate.
  - destruct (f_keep_photo f); cbn; rewrite He;
      destruct (f_tag_ids f); try rewrite tags_in_nil; reflexivity.
Qed.

Lemma item_tag_ids_set (s : DB) (iid : Z) (ids : list Z) :
  item_tag_ids (set_item_tags iid (tags_in s ids) s) iid = map tag_id (tags_in s ids).
Proof.
  unfold item_tag_ids, set_item_tags, set_item_tags_rows. cbn [item_tags tags].
  f_equal. unfold tags_in at 2. apply filter_ext_in. intros t Ht.
  apply eq_true_iff_eq. rewrite existsb_app, orb_true_iff, !existsb_exists. split.
  - intros [(p & Hp & E)|(p & Hp & E)].
    + apply filter_In in Hp as [_ Hp]. apply andb_true_iff in E as [E _].
      rewrite E in Hp. discriminate.
    + apply in_map_iff in Hp as (t' & <- & Ht'). unfold tags_in in Ht'.
      apply filter_In in Ht' as [_ Ht']. apply existsb_exists in Ht' as (x & Hx & Ex).
      apply andb_true_iff in E as [_ E]. cbn in E. apply Z.eqb_eq in E, Ex.
      exists x. split; [exact Hx|]. apply Z.eqb_eq. congruence.
  - intros (x & Hx & Ex). right. exists (iid, tag_id t). split.
    + apply in_map_iff. exists t. split; [reflexivity|]. unfold tags_in.
      apply filter_In. split; [exact Ht|]. apply existsb_exists. exists x. auto.
    + cbn. rewrite !Z.eqb_refl. reflexivity.
Qed.

(** In every reachable state, an edit of an existing item that passes
    validation, and whose default expiration date (when none is submitted)
    does not pass [date.max], redirects to the item and appends its new
    latest revision,
    numbered one past the previous latest. That revision is never deleted,
    so editing a soft-deleted item un-deletes it. Its photo is the newly
    saved upload, else the previous photo when keep_photo is set, else
    none. It carries exactly the submitted valid links, and the item's
    tags become the stored tags among the submitted tag ids. *)
Theorem save_edit_success (s : DB) (pid : string) (it : FoodItem) (f : ItemForm) :
  reachable s -> get_item s pid = Some it -> exp_overflow f = false -> form_errors f = [] ->
  let s' := snd (save_edit pid f s) in
  exists p r,
    latest_revision (item_revs s (fi_id it)) = Some p /\
    fst (save_edit pid f s) = Redirect ("/i/" ++ pid) /\
    latest_revision (item_revs s' (fi_id it)) = Some r /\
    revision_num r = S (revision_num p) /\
    is_deleted r = false /\ item_is_deleted (item_revs s' (fi_id it)) = false /\
    photo_filename r = match f_photo f with
                       | Some (PhotoSaved n) => Some n
                       | Some (PhotoRejected _) => None
                       | None => if f_keep_photo f then photo_filename p else None
                       end /\
    map link_content (links_of s' (rev_id r)) = snd (check_links (form_links f)) /\
    item_tag_ids s' (fi_id it) = map tag_id (tags_in s (f_tag_ids f)).
Proof.
  intros Hr G Ho He s'. pose proof (reachable_Inv s Hr) as HI.
  pose proof (get_item_In _ _ _ G) as Hit.
  pose proof (step_Inv s _ HI (step_edit pid f s)) as HI'. fold s' in HI'.
  destruct (save_edit_ok s pid it f HI G Ho He) as (p & Hl & E).
  set (rid := next_id (map rev_id (item_revisions s))) in E.
  set (r := form_revision rid (fi_id it) (S (revision_num p)) f _) in E.
  assert (Hs' : s' = add_links_db rid (snd (check_links (form_links f)))
                       (add_revision r (set_item_tags (fi_id it) (tags_in s (f_tag_ids f)) s)))
    by (unfold s'; rewrite E; reflexivity).
  assert (Hit' : In it (food_items s')) by (rewrite Hs'; exact Hit).
  assert (Hl' : latest_revision (item_revs s' (fi_id it)) = Some r).
  { rewrite (Inv_item_revs s' it HI' Hit'), Hs'.
    change (revs_in_order (add_links_db rid (snd (check_links (form_links f)))
              (add_revision r (set_item_tags (fi_id it) (tags_in s (f_tag_ids f)) s))) (fi_id it))
      with (revs_in_order (add_revision r s) (fi_id it)).
    rewrite revs_in_order_add_revision. cbn [r form_revision item_id]. rewrite Z.eqb_refl.
    apply last_opt_app_last. }
  exists p, r. split; [exact Hl|]. split; [rewrite E; reflexivity|].
  split; [exact Hl'|]. split; [reflexivity|]. split; [reflexivity|].
  split; [unfold item_is_deleted; rewrite Hl'; reflexivity|].
  split; [reflexivity|]. split.
  - rewrite Hs'. apply links_of_add_links_db. intros k Hk. apply (fresh_rev_links s HI k Hk).
  - rewrite Hs'. apply item_tag_ids_set.
Qed.

Lemma save_edit_success_witness :
  let s := snd (soft_delete "tok" 738001%Z demo_db) in
  reachable s /\ get_item s "tok" = Some demo_item /\ exp_overflow demo_form = false /\
  form_errors demo_form = [] /\
  (let s' := snd (save_edit "tok" demo_form s) in
   exists p r,
     latest_revision (item_revs s (fi_id demo_item)) = Some p /\
     fst (save_edit "tok" demo_form s) = Redirect ("/i/" ++ "tok") /\
     latest_revision (item_revs s' (fi_id demo_item)) = Some r /\
     revision_num r = S (revision_num p) /\
     is_deleted r = false /\ item_is_deleted (item_revs s' (fi_id demo_item)) = false /\
     photo_filename r = match f_photo demo_form with
                        | Some (PhotoSaved n) => Some n
                        | Some (PhotoRejected _) => None
                        | None => if f_keep_photo demo_form then photo_filename p else None
                        end /\
     map link_content (links_of s' (rev_id r)) = snd (check_links (form_links demo_form)) /\
     item_tag_ids s' (fi_id demo_item) = map tag_id (tags_in s (f_tag_ids demo_form))).
Proof.
  intros s.
  assert (Hr : reachable s)
    by (apply (reach_step demo_db); [exact demo_db_reachable|apply step_delete]).
  split; [exact Hr|]. split; [vm_compute; reflexivity|]. split; [vm_compute; reflexivity|].
  split; [vm_compute; reflexivity|].
  apply (save_edit_success s "tok" demo_item demo_form);
    [exact Hr|vm_compute; reflexivity|vm_compute; reflexivity|vm_compute; reflexivity].
Defined.

(** ** The dashboard text filter *)

Lemma like_match_percent (p t : list ascii) :
  like_match ("%"%char :: p) t = true <-> exists t1 t2, t = t1 ++ t2 /\ like_match p t2 = true.
Proof.
  cbn [like_match]. change (Ascii.eqb "%" "%") with true. cbv iota beta.
  induction t as [|x t IH].
  - rewrite orb_false_r. split.
    + intros H. exists [], []. auto.
    + intros (t1 & t2 & E & H). symmetry in E. apply app_eq_nil in E as [-> ->]. exact H.
  - rewrite orb_true_iff, IH. split.
    + intros [H|(t1 & t2 & E & H)].
      * exists [], (x :: t). auto.
      * exists (x :: t1), t2. rewrite E. auto.
    + intros ([|y t1] & t2 & E & H).
      * left. simpl in E. rewrite E. exact H.
      * right. injection E as <- E. exists t1, t2. auto.
Qed.

Lemma like_match_prefix (p t : list ascii) :
  forallb (fun c => negb (Ascii.eqb c "%" || Ascii.eqb c "_")) p = true ->
  like_match (p ++ ["%"%char]) t = true <->
  exists c d, t = c ++ d /\ Forall2 (fun x y => char_ieq x y = true) p c.
Proof.
  revert t. induction p as [|a p IH]; intros t Hp.
  - simpl app. rewrite like_match_percent. split.
    + intros _. exists [], t. auto.
    + intros _. exists t, []. rewrite app_nil_r. auto.
  - simpl in Hp. apply andb_true_iff in Hp as [Ha Hp].
    apply negb_true_iff, orb_false_iff in Ha as [Ha1 Ha2].
    simpl app. cbn [like_match]. rewrite Ha1, Ha2. cbn [orb].
    destruct t as [|x t].
    + split; [discriminate|]. intros (c & d & E & Hf).
      symmetry in E. apply app_eq_nil in E as [-> _]. inversion Hf.
    + rewrite andb_true_iff, (IH t Hp). split.
      * intros (Hx & c & d & -> & Hf). exists (x :: c), d. auto.
      * intros (c & d & E & Hf). inversion Hf as [|a' x' p' c' Hx Hf']; subst.
        injection E as <- E. split; [exact Hx|]. exists c', d. auto.
Qed.

Lemma list_ascii_of_string_append (a b : string) :
  list_ascii_of_string (a ++ b) = list_ascii_of_string a ++ list_ascii_of_string b.
Proof. induction a as [|c a IH]; simpl; [reflexivity|]. rewrite IH. reflexivity. Qed.

(** For a query free of the LIKE wildcards % and _, the dashboard's text
    filter keeps exactly the rows of the unfiltered listing whose name
    contains the query as a substring, letters compared ignoring ASCII
    case. *)
Theorem dashboard_text_filter_substring (s : DB) (q : string) (location : option Z)
    (show_deleted : bool) (r : ItemRevision) :
  no_wildcards q = true ->
  In r (dashboard_revisions s q location show_deleted) <->
  In r (dashboard_revisions s "" location show_deleted) /\
  exists a c b, list_ascii_of_string (name r) = a ++ c ++ b /\
                Forall2 (fun x y => char_ieq x y = true) (list_ascii_of_string q) c.
Proof.
  intros Hq. rewrite !In_dashboard_revisions.
  assert (Hsub : ilike (name r) ("%" ++ q ++ "%") = true <->
                 exists a c b, list_ascii_of_string (name r) = a ++ c ++ b /\
                   Forall2 (fun x y => char_ieq x y = true) (list_ascii_of_string q) c).
  { unfold ilike. rewrite !list_ascii_of_string_append. cbn [list_ascii_of_string app].
    rewrite like_match_percent. split.
    - intros (t1 & t2 & E & H). apply (like_match_prefix _ _ Hq) in H as (c & d & -> & Hf).
      exists t1, c, d. auto.
    - intros (a & c & b & E & Hf). exists a, (c ++ b). split; [exact E|].
      apply (like_match_prefix _ _ Hq). exists c, b. auto. }
  split.
  - intros (H1 & H2 & H3 & H4). split; [split; [exact H1|split; [exact H2|split; [left; reflexivity|exact H4]]]|].
    destruct H3 as [->|H3].
    + exists (list_ascii_of_string (name r)), [], []. rewrite app_nil_r. auto.
    + apply Hsub. exact H3.
  - intros ((H1 & H2 & _ & H4) & H3). split; [exact H1|]. split; [exact H2|].
    split; [right; apply Hsub; exact H3|exact H4].
Qed.

Lemma dashboard_text_filter_substring_witness :
  no_wildcards "OU" = true /\
  (In demo_rev1 (dashboard_revisions demo_db "OU" None false) <->
   In demo_rev1 (dashboard_revisions demo_db "" None false) /\
   exists a c b, list_ascii_of_string (name demo_rev1) = a ++ c ++ b /\
                 Forall2 (fun x y => char_ieq x y = true) (list_ascii_of_string "OU") c).
Proof.
  split; [vm_compute; reflexivity|].
  apply (dashboard_text_filter_substring demo_db "OU" None false demo_rev1). vm_compute. reflexivity.
Defined.

(** ** Item pages around a soft delete *)

(** In every reachable state, after a soft delete of an existing item whose
    latest revision is p, the detail page shows a deleted latest revision
    with p's name and the item's URL, and the reuse form is offered under
    p's name. After a restore, the reuse form redirects to the item page
    instead. *)
Theorem soft_delete_item_pages (s : DB) (pid base_url : string) (it : FoodItem)
    (p : ItemRevision) (today : Z) :
  reachable s -> get_item s pid = Some it ->
  latest_revision (item_revs s (fi_id it)) = Some p ->
  let s1 := snd (soft_delete pid today s) in
  (exists d, item_detail base_url pid s1 = Some (DetailPage (Some d) true (item_url base_url pid)) /\
             is_deleted d = true /\ name d = name p) /\
  reuse_form pid s1 = ReuseFormPage (name p) /\
  reuse_form pid (snd (restore_item pid s1)) = Redirect ("/i/" ++ pid).
Proof.
  intros Hr G Hp0 s1. pose proof (reachable_Inv s Hr) as HI. pose proof (get_item_In _ _ _ G) as Hit.
  pose proof (step_Inv s _ HI (step_delete pid today s)) as HI1. fold s1 in HI1.
  destruct (soft_delete_spec s pid it today HI G) as (p' & d & Hl & _ & Hs & Hid & _ & _ & Hdel & Hdisp).
  rewrite Hp0 in Hl. injection Hl as <-. fold s1 in Hs. rewrite Hs in HI1.
  assert (Hit1 : In it (food_items s1)) by (rewrite Hs; exact Hit).
  assert (Hl1 : latest_revision (item_revs s1 (fi_id it)) = Some d).
  { rewrite Hs, (item_revs_snoc s it d HI HI1 Hit Hid). apply last_opt_app_last. }
  rewrite <- Hs in HI1.
  assert (G1 : get_item s1 pid = Some it) by (rewrite Hs; exact G).
  assert (Hn : name d = name p) by (unfold displayable in Hdisp; congruence).
  split; [|split].
  - exists d. unfold item_detail. rewrite G1. unfold item_is_deleted. rewrite Hl1, Hdel.
    auto.
  - unfold reuse_form. rewrite G1. unfold item_is_deleted. rewrite Hl1, Hdel. cbn.
    rewrite Hn. reflexivity.
  - pose proof (step_Inv s1 _ HI1 (step_restore pid s1)) as HI2.
    destruct (restore_item_spec s1 pid it HI1 G1)
      as (src & fin & _ & _ & Hs2 & Hfid & _ & _ & Hfdel & _).
    set (s2 := snd (restore_item pid s1)) in *.
    assert (Hit2 : In it (food_items s2)) by (rewrite Hs2; exact Hit1).
    assert (Hl2 : latest_revision (item_revs s2 (fi_id it)) = Some fin).
    { rewrite (Inv_item_revs s2 it HI2 Hit2), Hs2, revs_in_order_add_links_db,
              revs_in_order_add_revision, Hfid, Z.eqb_refl.
      apply last_opt_app_last. }
    assert (G2 : get_item s2 pid = Some it) by (rewrite Hs2; exact G1).
    unfold reuse_form. rewrite G2. unfold item_is_deleted. rewrite Hl2, Hfdel. reflexivity.
Qed.

Lemma soft_delete_item_pages_witness :
  reachable demo_db /\ get_item demo_db "tok" = Some demo_item /\
  latest_revision (item_revs demo_db (fi_id demo_item)) = Some demo_rev1 /\
  (let s1 := snd (soft_delete "tok" 738001%Z demo_db) in
   (exists d, item_detail "http://h" "tok" s1 =
                Some (DetailPage (Some d) true (item_url "http://h" "tok")) /\
              is_deleted d = true /\ name d = name demo_rev1) /\
   reuse_form "tok" s1 = ReuseFormPage (name demo_rev1) /\
   reuse_form "tok" (snd (restore_item "tok" s1)) = Redirect ("/i/" ++ "tok")).
Proof.
  split; [exact demo_db_reachable|]. split; [vm_compute; reflexivity|].
  split; [vm_compute; reflexivity|].
  apply (soft_delete_item_pages demo_db "tok" "http://h" demo_item demo_rev1 738001%Z);
    [exact demo_db_reachable|vm_compute; reflexivity|vm_compute; reflexivity].
Defined.

(** ** Creating a location *)

(** Submitting the same location name twice (up to surrounding whitespace)
    never creates a second location: the second submission leaves the
    database as the first one left it and reports "Name is required." for a
    blank name, else that the name already exists. *)
Theorem create_location_twice (n m : string) (s : DB) :
  strip m = strip n ->
  let s1 := snd (create_location n s) in
  create_location m s1 =
    (LocationsPage (Some (if String.eqb (strip n) "" then "Name is required."%string
                          else ("'" ++ strip n ++ "' already exists.")%string)), s1).
Proof.
  intros Hm s1. unfold s1, create_location. rewrite Hm.
  destruct (String.eqb (strip n) "") eqn:E; [reflexivity|].
  destruct (existsb (fun l => String.eqb (loc_name l) (strip n)) (storage_locations s)) eqn:Ex.
  - cbn. rewrite ?E, ?Ex. reflexivity.
  - cbn. rewrite ?E. unfold add_location. cbn [storage_locations].
    rewrite existsb_app, Ex. cbn. rewrite String.eqb_refl. reflexivity.
Qed.

Lemma create_location_twice_witness :
  strip " Attic " = strip "Attic" /\
  create_location " Attic " (snd (create_location "Attic" demo_db)) =
    (LocationsPage (Some (if String.eqb (strip "Attic") "" then "Name is required."%string
                          else ("'" ++ strip "Attic" ++ "' already exists.")%string)),
     snd (create_location "Attic" demo_db)).
Proof.
  split; [vm_compute; reflexivity|].
  apply (create_location_twice "Attic" " Attic " demo_db). vm_compute. reflexivity.
Defined.

(** ** Unknown public ids *)

Lemma get_item_none (s : DB) (pid : string) :
  ~ In pid (map public_id (food_items s)) -> get_item s pid = None.
Proof.
  intros Hn. destruct (get_item s pid) as [it|] eqn:G; [|reflexivity].
  exfalso. apply Hn. unfold get_item in G. apply find_some in G as [Hit E].
  apply String.eqb_eq in E. rewrite <- E. apply in_map. exact Hit.
Qed.

(** For a public id that no stored item has, every per-item route answers
    404 (the POST handlers leave the database unchanged) whatever the
    submitted data: edit, quick amount update, soft delete, restore, reuse
    (form and submission), and the detail, QR image, label, edit form and
    history pages. *)
Theorem unknown_public_id_not_found (s : DB) (pid base_url : string) (f : ItemForm)
    (amt : option QArith_base.Q) (unit : string) (today : Z) :
  ~ In pid (map public_id (food_items s)) ->
  save_edit pid f s = (NotFound, s) /\ update_amount pid amt unit today s = (NotFound, s) /\
  soft_delete pid today s = (NotFound, s) /\ restore_item pid s = (NotFound, s) /\
  reuse_label pid f s = (NotFound, s) /\ reuse_form pid s = NotFound /\
  item_detail base_url pid s = None /\ qr_image base_url pid s = None /\
  printable_label pid s = None /\ edit_form pid s = None /\ item_history pid s = None.
Proof.
  intros Hn. apply get_item_none in Hn.
  unfold save_edit, update_amount, soft_delete, restore_item, reuse_label, reuse_form,
         item_detail, qr_image, printable_label, edit_form, item_history.
  rewrite Hn. repeat split.
Qed.

Lemma unknown_public_id_not_found_witness :
  ~ In "nope"%string (map public_id (food_items demo_db)) /\
  save_edit "nope" demo_form demo_db = (NotFound, demo_db) /\
  update_amount "nope" None "" 738001%Z demo_db = (NotFound, demo_db) /\
  soft_delete "nope" 738001%Z demo_db = (NotFound, demo_db) /\
  restore_item "nope" demo_db = (NotFound, demo_db) /\
  reuse_label "nope" demo_form demo_db = (NotFound, demo_db) /\
  reuse_form "nope" demo_db = NotFound /\
  item_detail "http://h" "nope" demo_db = None /\ qr_image "http://h" "nope" demo_db = None /\
  printable_label "nope" demo_db = None /\ edit_form "nope" demo_db = None /\
  item_history "nope" demo_db = None.
Proof.
  assert (Hn : ~ In "nope"%string (map public_id (food_items demo_db))).
  { vm_compute. intros [H|H]; [discriminate|exact H]. }
  split; [exact Hn|].
  apply (unknown_public_id_not_found demo_db "nope" "http://h" demo_form None "" 738001%Z).
  exact Hn.
Defined.
